(** * Wave Terminal tile layout: geometry utilities and drop targets

    A shallow embedding of [frontend/faraday/lib/utils.ts]
    ([reverseFlexDirection], [determineDropDirection], [setTransform],
    [debounce], [lazy]), of [canDrop] and [checkForCursorBounds] of
    [frontend/layout/lib/TileLayout.tsx], of [CopyButton] of
    [frontend/app/element/copybutton.tsx] and of the commands of
    [frontend/app/store/wshserver.ts].

    The numbers of the program are JavaScript numbers: binary64. The
    functions are embedded over the interface [JSNumber] and the program is
    its instance [float_number], the primitive binary64 floats, with their
    rounding, infinities and NaN. The instance [Q_number] is exact
    arithmetic: it is not the program, it says what the geometry asks for,
    and the properties of the drop zones compare the binary64 run with it. *)

From Stdlib Require Import ZArith QArith Qpower Lia Lqa Bool List String Ascii.
From Stdlib Require Import PrimFloat Floats DecimalString.
From ExtLib Require Import Structures.Monad Structures.MonadState Data.Monads.StateMonad.
Import ListNotations.

Local Open Scope Z_scope.

(** ** Numbers *)

Module Num.

(** The operations of a JavaScript number that the embedded functions use:
    [-], [+], [*], [/], the comparisons [<], [>], [==], and literals. *)
Class JSNumber (N : Type) : Type :=
  { sub : N -> N -> N;
    add : N -> N -> N;
    mul : N -> N -> N;
    div : N -> N -> N;
    ltb : N -> N -> bool;
    gtb : N -> N -> bool;
    eqb : N -> N -> bool;
    lit : Z -> N }.

Definition Qltb (a b : Q) : bool :=
  match Qcompare a b with Lt => true | _ => false end.

(** Exact arithmetic, on the rationals: nothing is rounded, nothing
    overflows and there is no NaN. No JavaScript number behaves so; a run of
    a function at this instance is the reference that a binary64 run is
    compared with. *)
#[export] Instance Q_number : JSNumber Q :=
  { sub := Qminus; add := Qplus; mul := Qmult; div := Qdiv;
    ltb := Qltb; gtb := fun a b => Qltb b a; eqb := Qeq_bool;
    lit := inject_Z }.

(** The numbers of the program: binary64. An integer literal as a binary64
    number is exact below [2^53]. *)
Fixpoint float_of_pos (p : positive) : float :=
  match p with
  | xH => PrimFloat.one
  | xO q => PrimFloat.mul PrimFloat.two (float_of_pos q)
  | xI q => PrimFloat.add (PrimFloat.mul PrimFloat.two (float_of_pos q)) PrimFloat.one
  end.

Definition float_of_Z (z : Z) : float :=
  match z with
  | Z0 => PrimFloat.zero
  | Zpos p => float_of_pos p
  | Zneg p => PrimFloat.opp (float_of_pos p)
  end.

#[export] Instance float_number : JSNumber float :=
  { sub := PrimFloat.sub; add := PrimFloat.add; mul := PrimFloat.mul;
    div := PrimFloat.div;
    ltb := PrimFloat.ltb; gtb := fun a b => PrimFloat.ltb b a;
    eqb := PrimFloat.eqb;
    lit := float_of_Z }.

End Num.
Import Num.

Declare Scope js_scope.
Delimit Scope js_scope with js.
Infix "-" := sub : js_scope.
Infix "+" := add : js_scope.
Infix "*" := mul : js_scope.
Infix "/" := div : js_scope.
Infix "<?" := ltb : js_scope.
Infix ">?" := gtb : js_scope.
Infix "==?" := eqb (at level 70) : js_scope.

(** ** Data model of [utils.ts] *)

Record Dimensions (N : Type) : Type :=
  { width : N; height : N; left : N; top : N }.
Arguments width {N} _.
Arguments height {N} _.
Arguments left {N} _.
Arguments top {N} _.

(** [XYCoord] of react-dnd: a pair of numbers. *)
Record XYCoord (N : Type) : Type := { x : N; y : N }.
Arguments x {N} _.
Arguments y {N} _.

(** [enum DropDirection]: a numeric enum, so that a value of the type is its
    number at run time. *)
Inductive DropDirection : Type :=
| Top | Right | Bottom | Left
| OuterTop | OuterRight | OuterBottom | OuterLeft
| Center.

Definition DropDirection_value (d : DropDirection) : Z :=
  match d with
  | Top => 0 | Right => 1 | Bottom => 2 | Left => 3
  | OuterTop => 4 | OuterRight => 5 | OuterBottom => 6 | OuterLeft => 7
  | Center => 8
  end.

(** [enum FlexDirection]: a string enum. *)
Inductive FlexDirection : Type := Row | Column.

Definition FlexDirection_value (d : FlexDirection) : string :=
  match d with Row => "row" | Column => "column" end%string.

Definition FlexDirection_eqb (a b : FlexDirection) : bool :=
  String.eqb (FlexDirection_value a) (FlexDirection_value b).

(** ** [reverseFlexDirection] *)

Definition reverseFlexDirection (flexDirection : FlexDirection) : FlexDirection :=
  if FlexDirection_eqb flexDirection Row then Column else Row.

(** ** [determineDropDirection]

    The function returns the number [code] where its return type is the
    numeric enum; [None] is [undefined]. The [console.log] call, which has no
    effect on the result, is left out. *)

Section DetermineDropDirection.
Context {N : Type} `{JSNumber N}.
Local Open Scope js_scope.

Definition determineDropDirection
    (dimensions : option (Dimensions N)) (offset : option (XYCoord N)) : option Z :=
  match offset, dimensions with
  | Some offset, Some dimensions =>
    let '(width, height, left, top) :=
      (width dimensions, height dimensions, left dimensions, top dimensions) in
    let x := x offset - left in
    let y := y offset - top in
    (* Lies outside of the box *)
    if (y <? lit 0) || (y >? height) || (x <? lit 0) || (x >? width) then None else
    let centerX1 := (lit 2 * width) / lit 5 in
    let centerX2 := (lit 3 * width) / lit 5 in
    let centerY1 := (lit 2 * height) / lit 5 in
    let centerY2 := (lit 3 * height) / lit 5 in
    if (x >? centerX1) && (x <? centerX2) && (y >? centerY1) && (y <? centerY2)
    then Some (DropDirection_value Center) else
    let diagonal1 := y * width - x * height in
    let diagonal2 := y * width + x * height - height * width in
    (* Lies on diagonal *)
    if (diagonal1 ==? lit 0) || (diagonal2 ==? lit 0) then None else
    let code := 0%Z in
    let code := if diagonal2 >? lit 0 then (code + 1)%Z else code in
    let code := if diagonal1 >? lit 0 then (5 - (code + 2))%Z else code in
    let xOuter1 := width / lit 5 in
    let xOuter2 := width - width / lit 5 in
    let yOuter1 := height / lit 5 in
    let yOuter2 := height - height / lit 5 in
    let code :=
      if (y <? yOuter1) || (y >? yOuter2) || (x <? xOuter1) || (x >? xOuter2)
      then (code + 4)%Z else code in
    Some code
  | _, _ => None
  end.

End DetermineDropDirection.

(** ** [setTransform]

    A template literal formats a number with [Number.prototype.toString],
    which is a parameter here: [toString]. The argument [setSize] is optional
    and defaults to [true]; [None] is an omitted argument. *)

Module CSS.
(** The properties of React's [CSSProperties] that [setTransform] sets;
    [None] is [undefined], a property that is not applied. *)
Record CSSProperties (N : Type) : Type :=
  { top : N;
    left : N;
    transform : string;
    WebkitTransform : string;
    MozTransform : string;
    msTransform : string;
    OTransform : string;
    width : option string;
    height : option string;
    position : string }.
Arguments top {N} _.
Arguments left {N} _.
Arguments transform {N} _.
Arguments WebkitTransform {N} _.
Arguments MozTransform {N} _.
Arguments msTransform {N} _.
Arguments OTransform {N} _.
Arguments width {N} _.
Arguments height {N} _.
Arguments position {N} _.
End CSS.

Section SetTransform.
Context {N : Type} `{JSNumber N}.
Variable toString : N -> string.
Local Open Scope string_scope.

Definition setTransform (dimensions : Dimensions N) (setSize : option bool)
  : CSS.CSSProperties N :=
  let '(top, left, width, height) :=
    (top dimensions, left dimensions, width dimensions, height dimensions) in
  let setSize := match setSize with Some b => b | None => true end in
  (* Replace unitless items with px *)
  let translate := "translate(" ++ toString left ++ "px," ++ toString top ++ "px)" in
  {| CSS.top := lit 0;
     CSS.left := lit 0;
     CSS.transform := translate;
     CSS.WebkitTransform := translate;
     CSS.MozTransform := translate;
     CSS.msTransform := translate;
     CSS.OTransform := translate;
     CSS.width := if setSize then Some (toString width ++ "px") else None;
     CSS.height := if setSize then Some (toString height ++ "px") else None;
     CSS.position := "absolute" |}.

End SetTransform.

(** A printer to run [setTransform] on integers: the decimal digits of the
    floor of a rational. On an integer below [10^21] in absolute value this
    is what [Number.prototype.toString] prints; it is not on any other
    number, where JavaScript prints the digits of the fraction, or an
    exponent from [10^21] on. *)
Definition integer_toString (q : Q) : string :=
  NilZero.string_of_int (Z.to_int (Qnum q / Zpos (Qden q))).

(** ** [debounce]

    The wrapper returned by [debounce] runs against the timers of the host
    and two kinds of variables: [timeout], shared by all the invocations of
    one wrapper, and [result], declared anew by each invocation and captured
    by the arrow function handed to [setTimeout]. A JavaScript function runs
    to completion: a timer fires only from the event loop, between two
    invocations, which is the step [fire]. *)

Section Debounce.
Variables Args Ret Delay : Type.
Import MonadNotation.
Local Open Scope monad_scope.
Local Open Scope nat_scope.

(** The arrow function [() => { result = callback(...args); }] scheduled
    under the identifier [timer_id]: it captures the arguments and the
    variable [result] of its invocation. *)
Record Timer : Type :=
  { timer_id : nat;
    timer_delay : Delay;
    timer_args : Args;
    timer_result : nat }.

Record Runtime : Type :=
  { next_timer : nat;               (* the next identifier of setTimeout *)
    timers : list Timer;            (* the timers that are scheduled *)
    timeout : option nat;           (* let timeout: NodeJS.Timeout *)
    results : list (option Ret) }.  (* the result variables, by invocation *)

Definition initial : Runtime :=
  {| next_timer := 1; timers := []; timeout := None; results := [] |}.

(** [let result: any;] a new variable, which holds [undefined]. *)
Definition declare_result : state Runtime nat :=
  rt <- get ;;
  put {| next_timer := next_timer rt; timers := timers rt;
         timeout := timeout rt; results := results rt ++ [None] |} ;;
  ret (List.length (results rt)).

Definition read_result (r : nat) : state Runtime (option Ret) :=
  rt <- get ;;
  ret (nth r (results rt) None).

Fixpoint assign {A : Type} (l : list A) (i : nat) (v : A) : list A :=
  match l, i with
  | [], _ => []
  | _ :: t, O => v :: t
  | h :: t, S j => h :: assign t j v
  end.

Definition write_result (r : nat) (v : Ret) : state Runtime unit :=
  rt <- get ;;
  put {| next_timer := next_timer rt; timers := timers rt;
         timeout := timeout rt; results := assign (results rt) r (Some v) |}.

(** [clearTimeout(id)]: cancels the timer when it is still scheduled, and
    does nothing for [undefined] or for a timer that has fired. *)
Definition clearTimeout (id : option nat) : state Runtime unit :=
  rt <- get ;;
  match id with
  | None => ret tt
  | Some i =>
    put {| next_timer := next_timer rt;
           timers := filter (fun t => negb (Nat.eqb (timer_id t) i)) (timers rt);
           timeout := timeout rt; results := results rt |}
  end.

Definition setTimeout (args : Args) (r : nat) (waitFor : Delay) : state Runtime nat :=
  rt <- get ;;
  let i := next_timer rt in
  put {| next_timer := S i;
         timers := timers rt ++
           [{| timer_id := i; timer_delay := waitFor; timer_args := args; timer_result := r |}];
         timeout := timeout rt; results := results rt |} ;;
  ret i.

Definition get_timeout : state Runtime (option nat) :=
  rt <- get ;; ret (timeout rt).

Definition set_timeout (i : nat) : state Runtime unit :=
  rt <- get ;;
  put {| next_timer := next_timer rt; timers := timers rt;
         timeout := Some i; results := results rt |}.

(** The wrapper that [debounce callback waitFor] returns, applied to
    [args]. The callback is not a parameter of the invocation itself: only
    the timer runs it. *)
Definition debounce (callback : Args -> Ret) (waitFor : Delay) (args : Args)
  : state Runtime (option Ret) :=
  result <- declare_result ;;
  t <- get_timeout ;;
  clearTimeout t ;;
  i <- setTimeout args result waitFor ;;
  set_timeout i ;;
  read_result result.

(** The event loop fires the scheduled timer [i]: the timer leaves the
    queue and its arrow function runs. *)
Definition fire (callback : Args -> Ret) (i : nat) : state Runtime unit :=
  rt <- get ;;
  match find (fun t => Nat.eqb (timer_id t) i) (timers rt) with
  | None => ret tt
  | Some t =>
    clearTimeout (Some i) ;;
    write_result (timer_result t) (callback (timer_args t))
  end.

(** What happens to a debounced function over time. *)
Inductive Event : Type :=
| Invoke (args : Args)
| Fire (i : nat).

(** Runs the events in order and collects what each invocation returned. *)
Fixpoint run (callback : Args -> Ret) (waitFor : Delay) (events : list Event)
  : state Runtime (list (option Ret)) :=
  match events with
  | [] => ret []
  | Invoke args :: rest =>
    v <- debounce callback waitFor args ;;
    vs <- run callback waitFor rest ;;
    ret (v :: vs)
  | Fire i :: rest =>
    fire callback i ;;
    run callback waitFor rest
  end.

End Debounce.

Arguments timer_id {Args Delay} _.
Arguments timer_args {Args Delay} _.
Arguments timer_result {Args Delay} _.
Arguments timers {Args Ret Delay} _.
Arguments timeout {Args Ret Delay} _.
Arguments results {Args Ret Delay} _.
Arguments next_timer {Args Ret Delay} _.
Arguments initial {Args Ret Delay}.
Arguments debounce {Args Ret Delay} _ _ _.
Arguments fire {Args Ret Delay} _ _.
Arguments run {Args Ret Delay} _ _ _.
Arguments Invoke {Args} _.
Arguments Fire {Args} _.

(** ** The overlay drop target of [TileLayout.tsx] *)

(** [LayoutNode]: of the node, the drop target reads the identifier only. *)
Record LayoutNode : Type := { id : string }.

(** What [canDrop] asks of react-dnd's [DropTargetMonitor]. *)
Record DropTargetMonitor : Type :=
  { getItem : option LayoutNode;
    isOver_shallow : bool;
    isOver_deep : bool }.

Definition isOver (monitor : DropTargetMonitor) (shallow : bool) : bool :=
  if shallow then isOver_shallow monitor else isOver_deep monitor.

(** [a !== b] where [a] may be [undefined] and [b] is a string. *)
Definition strict_neq (a : option string) (b : string) : bool :=
  match a with
  | Some s => negb (String.eqb s b)
  | None => true
  end.

Definition canDrop (layoutNode : LayoutNode) (monitor : DropTargetMonitor) : bool :=
  let dragItem := getItem monitor in
  if isOver monitor true && strict_neq (option_map id dragItem) (id layoutNode)
  then true
  else false.

(** ** The geometry of a drop, over the rationals

    The pointer relative to the origin of the rectangle, and the same in
    units of the rectangle's width and height. *)

Section Geometry.
Local Open Scope Q_scope.
Variables (R : Dimensions Q) (P : XYCoord Q).

Definition relX : Q := x P - left R.
Definition relY : Q := y P - top R.
Definition unitX : Q := relX / width R.
Definition unitY : Q := relY / height R.

Definition positive_size : Prop := 0 < width R /\ 0 < height R.

Definition within : Prop :=
  0 <= relX /\ relX <= width R /\ 0 <= relY /\ relY <= height R.

Definition strictly_inside : Prop :=
  0 < relX /\ relX < width R /\ 0 < relY /\ relY < height R.

Definition outside : Prop :=
  relX < 0 \/ width R < relX \/ relY < 0 \/ height R < relY.

(** The diagonal from the top left corner to the bottom right corner, and
    the one from the top right corner to the bottom left corner. *)
Definition on_main_diagonal : Prop := unitY == unitX.
Definition on_anti_diagonal : Prop := unitY == 1 - unitX.
Definition on_diagonal : Prop := on_main_diagonal \/ on_anti_diagonal.

(** Strictly between 2/5 and 3/5 of the width and of the height. *)
Definition in_center : Prop :=
  (2 # 5) * width R < relX /\ relX < (3 # 5) * width R /\
  (2 # 5) * height R < relY /\ relY < (3 # 5) * height R.

(** Closer than 1/5 of the width to the left or the right edge, or closer
    than 1/5 of the height to the top or the bottom edge. *)
Definition in_outer_margin : Prop :=
  relX < (1 # 5) * width R \/ width R - relX < (1 # 5) * width R \/
  relY < (1 # 5) * height R \/ height R - relY < (1 # 5) * height R.

(** The triangle, of the four that the diagonals cut the rectangle into,
    that lies against the edge [d]. The screen's ordinate grows downwards. *)
Definition in_quadrant (d : DropDirection) : Prop :=
  match d with
  | Top => unitY < unitX /\ unitY < 1 - unitX
  | Right => unitY < unitX /\ 1 - unitX < unitY
  | Bottom => unitX < unitY /\ 1 - unitX < unitY
  | Left => unitX < unitY /\ unitY < 1 - unitX
  | _ => False
  end.

(** The pointer after half a turn about the centre of the rectangle. *)
Definition rotate180 : XYCoord Q :=
  {| x := 2 * (left R + width R / 2) - x P;
     y := 2 * (top R + height R / 2) - y P |}.

End Geometry.

(** The intermediate values of [determineDropDirection] on the rationals:
    [diagonal1], [diagonal2] and [code] as it stands after the two sign
    tests. *)
Definition diagonal1 (R : Dimensions Q) (P : XYCoord Q) : Q :=
  (relY R P * width R - relX R P * height R)%Q.
Definition diagonal2 (R : Dimensions Q) (P : XYCoord Q) : Q :=
  (relY R P * width R + relX R P * height R - height R * width R)%Q.

Definition quadrant_code (R : Dimensions Q) (P : XYCoord Q) : Z :=
  let code := 0%Z in
  let code := if Qltb 0 (diagonal2 R P) then (code + 1)%Z else code in
  if Qltb 0 (diagonal1 R P) then (5 - (code + 2))%Z else code.

Definition outer (d : DropDirection) : DropDirection :=
  match d with
  | Top => OuterTop | Right => OuterRight | Bottom => OuterBottom | Left => OuterLeft
  | other => other
  end.

(** Top and Bottom, Left and Right change places, and so do their outer
    variants. *)
Definition opposite (d : DropDirection) : DropDirection :=
  match d with
  | Top => Bottom | Bottom => Top | Left => Right | Right => Left
  | OuterTop => OuterBottom | OuterBottom => OuterTop
  | OuterLeft => OuterRight | OuterRight => OuterLeft
  | Center => Center
  end.

Definition rect100 {N} `{JSNumber N} : Dimensions N :=
  {| width := lit 100; height := lit 100; left := lit 0; top := lit 0 |}.
Definition pt {N} `{JSNumber N} (a b : Z) : XYCoord N := {| x := lit a; y := lit b |}.

Definition square : Dimensions Q := rect100.
Definition pointer (a b : Z) : XYCoord Q := pt a b.

(** ** More of the geometry: edges, images of the pointer, images of the pair *)

Section MoreGeometry.
Local Open Scope Q_scope.
Variables (R : Dimensions Q) (P : XYCoord Q).

(** The pointer on the edge [d] of the rectangle, its two ends excluded. *)
Definition on_edge (d : DropDirection) : Prop :=
  match d with
  | Top => relY R P == 0 /\ 0 < relX R P /\ relX R P < width R
  | Bottom => relY R P == height R /\ 0 < relX R P /\ relX R P < width R
  | Left => relX R P == 0 /\ 0 < relY R P /\ relY R P < height R
  | Right => relX R P == width R /\ 0 < relY R P /\ relY R P < height R
  | _ => False
  end.

(** The pointer mirrored in the vertical axis through the centre of the
    rectangle, and in the horizontal one. *)
Definition mirror_horizontally : XYCoord Q :=
  {| x := 2 * left R + width R - x P; y := y P |}.
Definition mirror_vertically : XYCoord Q :=
  {| x := x P; y := 2 * top R + height R - y P |}.

(** The rectangle and the pointer moved by the same vector. *)
Definition move_rectangle (dx dy : Q) : Dimensions Q :=
  {| width := width R; height := height R; left := left R + dx; top := top R + dy |}.
Definition move_pointer (dx dy : Q) : XYCoord Q :=
  {| x := x P + dx; y := y P + dy |}.

(** The rectangle and the pointer in another unit of length. *)
Definition scale_rectangle (k : Q) : Dimensions Q :=
  {| width := k * width R; height := k * height R; left := k * left R; top := k * top R |}.
Definition scale_pointer (k : Q) : XYCoord Q :=
  {| x := k * x P; y := k * y P |}.

End MoreGeometry.

(** Left and Right change places, Top and Bottom stay. *)
Definition flip_horizontally (d : DropDirection) : DropDirection :=
  match d with
  | Left => Right | Right => Left
  | OuterLeft => OuterRight | OuterRight => OuterLeft
  | other => other
  end.

(** Top and Bottom change places, Left and Right stay. *)
Definition flip_vertically (d : DropDirection) : DropDirection :=
  match d with
  | Top => Bottom | Bottom => Top
  | OuterTop => OuterBottom | OuterBottom => OuterTop
  | other => other
  end.

(** The tests of [determineDropDirection] on the rationals, as a function of
    the relative pointer and of the size alone. *)
Definition classify (X Y W H : Q) : option Z :=
  (if Qltb Y 0 || Qltb H Y || Qltb X 0 || Qltb W X then None else
   if Qltb (2 * W * (1 # 5)) X && Qltb X (3 * W * (1 # 5)) &&
      Qltb (2 * H * (1 # 5)) Y && Qltb Y (3 * H * (1 # 5))
   then Some 8%Z else
   if Qeq_bool (Y * W - X * H) 0 || Qeq_bool (Y * W + X * H - H * W) 0 then None else
   Some (let code :=
           if Qltb 0 (Y * W - X * H)
           then (5 - ((if Qltb 0 (Y * W + X * H - H * W) then 0 + 1 else 0) + 2))%Z
           else (if Qltb 0 (Y * W + X * H - H * W) then 0 + 1 else 0)%Z in
         if Qltb Y (H * (1 # 5)) || Qltb (H - H * (1 # 5)) Y ||
            Qltb X (W * (1 # 5)) || Qltb (W - W * (1 # 5)) X
         then (code + 4)%Z else code))%Q.

(** ** [checkForCursorBounds] of [TileLayout.tsx]

    The function that [TileLayoutComponent] hands to the library's debounce:
    what it dispatches to the tree reducer for one cursor position. *)

Module Num2.
(** [<=] and [>=] of a JavaScript number. *)
Class JSNumberOrd (N : Type) : Type :=
  { lteb : N -> N -> bool;
    gteb : N -> N -> bool }.

#[export] Instance float_order : JSNumberOrd float :=
  { lteb := PrimFloat.leb; gteb := fun a b => PrimFloat.leb b a }.
End Num2.
Import Num2.

Infix "<=?" := lteb : js_scope.
Infix ">=?" := gteb (at level 70) : js_scope.

Module DOM.
(** What the function reads of the [DOMRect] of the display container. *)
Record DOMRect (N : Type) : Type :=
  { x : N; y : N; width : N; height : N }.
Arguments x {N} _.
Arguments y {N} _.
Arguments width {N} _.
Arguments height {N} _.
End DOM.

(** The kinds of action that [TileLayout.tsx] dispatches. *)
Inductive LayoutTreeActionType : Type :=
| ComputeMove
| CommitPendingAction
| ClearPendingAction.

Section CheckForCursorBounds.
Context {N : Type} `{JSNumber N} `{JSNumberOrd N}.
Local Open Scope js_scope.

(** [displayContainer] is the bounding rectangle of
    [layoutModel.displayContainerRef.current], [None] without an element. *)
Definition checkForCursorBounds
    (getCursorPoint : option (unit -> XYCoord N))
    (displayContainer : option (DOM.DOMRect N))
    (dragClientOffset : option (XYCoord N)) : list LayoutTreeActionType :=
  let cursorPoint :=
    match dragClientOffset with
    | Some offset => Some offset
    | None => option_map (fun f => f tt) getCursorPoint
    end in
  match cursorPoint, displayContainer with
  | Some cursorPoint, Some displayContainerRect =>
    let normalizedX := x cursorPoint - DOM.x displayContainerRect in
    let normalizedY := y cursorPoint - DOM.y displayContainerRect in
    if (normalizedX <=? lit 0) ||
       (normalizedX >=? DOM.width displayContainerRect) ||
       (normalizedY <=? lit 0) ||
       (normalizedY >=? DOM.height displayContainerRect)
    then [ClearPendingAction]
    else []
  | _, _ => []
  end.

End CheckForCursorBounds.

(** The rectangle of a [DOMRect]. *)
Definition Dimensions_of_DOMRect {N : Type} (r : DOM.DOMRect N) : Dimensions N :=
  {| width := DOM.width r; height := DOM.height r; left := DOM.x r; top := DOM.y r |}.

(** ** [lazy]

    The callback may have effects of its own: what an invocation of it gives
    depends on the invocations before it, which [lazy_calls] records. An
    invocation completes with a value or throws. *)

Section Lazy.
Variables Args Ret Exn : Type.
Import MonadNotation.
Local Open Scope monad_scope.

Record LazyState : Type :=
  { lazy_res : option Ret;         (* let res: ReturnType<T> *)
    processed : bool;              (* let processed = false *)
    lazy_calls : list Args }.      (* the invocations of the callback *)

Definition lazy_initial : LazyState :=
  {| lazy_res := None; processed := false; lazy_calls := [] |}.

(** The wrapper that [lazy callback] returns, applied to [args]: [inl] is
    the value it returns, [inr] the exception it throws. *)
Definition lazy (callback : list Args -> Args -> Ret + Exn) (args : Args)
  : state LazyState (option Ret + Exn) :=
  st <- get ;;
  if processed st then ret (inl (lazy_res st))
  else
    match callback (lazy_calls st) args with
    | inr e =>
      put {| lazy_res := lazy_res st; processed := false;
             lazy_calls := lazy_calls st ++ [args] |} ;;
      ret (inr e)
    | inl v =>
      put {| lazy_res := Some v; processed := true;
             lazy_calls := lazy_calls st ++ [args] |} ;;
      ret (inl (Some v))
    end.

(** One invocation after the other. *)
Fixpoint lazy_run (callback : list Args -> Args -> Ret + Exn) (argss : list Args)
  : state LazyState (list (option Ret + Exn)) :=
  match argss with
  | [] => ret []
  | args :: rest =>
    r <- lazy callback args ;;
    rs <- lazy_run callback rest ;;
    ret (r :: rs)
  end.

End Lazy.

Arguments lazy_res {Args Ret} _.
Arguments processed {Args Ret} _.
Arguments lazy_calls {Args Ret} _.
Arguments lazy_initial {Args Ret}.
Arguments lazy {Args Ret Exn} _ _.
Arguments lazy_run {Args Ret Exn} _ _.

(** ** [CopyButton] of [copybutton.tsx]

    The component over its renderings. A rendering runs the function
    [CopyButton]: it reads the state [isCopied] into a constant and creates
    the handler [handleOnClick], which reads that constant and not the
    state. Between two renderings the state may change, by [setIsCopied],
    and the handler of the latest rendering still sees the constant.
    [timeoutRef] is a reference: a handler reads what it holds now. *)

Section CopyButton.
Variable MouseEvent : Type.
Import MonadNotation.
Local Open Scope monad_scope.
Local Open Scope nat_scope.

Record CopyButton : Type :=
  { isCopied : bool;               (* the state, as the latest setIsCopied left it *)
    rendered_isCopied : bool;      (* the constant isCopied of the latest rendering *)
    timeoutRef : option nat;       (* timeoutRef.current *)
    copy_timers : list nat;        (* the timers that are scheduled *)
    copy_next_timer : nat;         (* the next identifier of setTimeout *)
    onClick_calls : list MouseEvent }.

(** After the first rendering. *)
Definition copy_initial : CopyButton :=
  {| isCopied := false; rendered_isCopied := false; timeoutRef := None;
     copy_timers := []; copy_next_timer := 1; onClick_calls := [] |}.

Definition copy_clearTimeout (i : nat) (timers : list nat) : list nat :=
  filter (fun j => negb (Nat.eqb j i)) timers.

(** The handler of the latest rendering; [onClick] is [true] when the
    property is given. *)
Definition handleOnClick (onClick : bool) (e : MouseEvent) : state CopyButton unit :=
  st <- get ;;
  if rendered_isCopied st then ret tt
  else
    let timers :=
      match timeoutRef st with
      | Some i => copy_clearTimeout i (copy_timers st)
      | None => copy_timers st
      end in
    let i := copy_next_timer st in
    put {| isCopied := true;
           rendered_isCopied := rendered_isCopied st;
           timeoutRef := Some i;
           copy_timers := timers ++ [i];
           copy_next_timer := S i;
           onClick_calls := if onClick then onClick_calls st ++ [e] else onClick_calls st |}.

(** The timer [i] fires, when it is scheduled: the arrow function of
    [setTimeout] runs. *)
Definition copy_fire (i : nat) : state CopyButton unit :=
  st <- get ;;
  if existsb (Nat.eqb i) (copy_timers st)
  then put {| isCopied := false;
              rendered_isCopied := rendered_isCopied st;
              timeoutRef := None;
              copy_timers := copy_clearTimeout i (copy_timers st);
              copy_next_timer := copy_next_timer st;
              onClick_calls := onClick_calls st |}
  else ret tt.

(** The component renders again: the constant [isCopied] of the new
    rendering, which its handler and its icon read, is the state. *)
Definition copy_render : state CopyButton unit :=
  st <- get ;;
  put {| isCopied := isCopied st;
         rendered_isCopied := isCopied st;
         timeoutRef := timeoutRef st;
         copy_timers := copy_timers st;
         copy_next_timer := copy_next_timer st;
         onClick_calls := onClick_calls st |}.

(** The cleanup of the effect, at unmount. *)
Definition copy_cleanup : state CopyButton unit :=
  st <- get ;;
  match timeoutRef st with
  | Some i =>
    put {| isCopied := isCopied st;
           rendered_isCopied := rendered_isCopied st;
           timeoutRef := timeoutRef st;
           copy_timers := copy_clearTimeout i (copy_timers st);
           copy_next_timer := copy_next_timer st;
           onClick_calls := onClick_calls st |}
  | None => ret tt
  end.

(** What happens to a mounted button: a click, a rendering, a timer that
    fires. A rendering may come late: any number of clicks can reach the
    handler of one rendering. *)
Inductive CopyEvent : Type :=
| Click (e : MouseEvent)
| Render
| TimerFires (i : nat).

Definition copy_step (onClick : bool) (ev : CopyEvent) : state CopyButton unit :=
  match ev with
  | Click e => handleOnClick onClick e
  | Render => copy_render
  | TimerFires i => copy_fire i
  end.

Fixpoint copy_run (onClick : bool) (events : list CopyEvent) : state CopyButton unit :=
  match events with
  | [] => ret tt
  | ev :: rest => copy_step onClick ev ;; copy_run onClick rest
  end.

(** No timer fires among the events. *)
Definition no_timer_fires (events : list CopyEvent) : bool :=
  forallb (fun ev => match ev with TimerFires _ => false | _ => true end) events.

End CopyButton.

Arguments isCopied {MouseEvent} _.
Arguments rendered_isCopied {MouseEvent} _.
Arguments timeoutRef {MouseEvent} _.
Arguments copy_timers {MouseEvent} _.
Arguments copy_next_timer {MouseEvent} _.
Arguments onClick_calls {MouseEvent} _.
Arguments copy_initial {MouseEvent}.
Arguments handleOnClick {MouseEvent} _ _.
Arguments copy_fire {MouseEvent} _.
Arguments copy_render {MouseEvent}.
Arguments copy_cleanup {MouseEvent}.
Arguments copy_step {MouseEvent} _ _.
Arguments copy_run {MouseEvent} _ _.
Arguments no_timer_fires {MouseEvent} _.
Arguments Click {MouseEvent} _.
Arguments Render {MouseEvent}.
Arguments TimerFires {MouseEvent} _.

(** The state of the button after the events. *)
Definition copy_after {MouseEvent : Type} (onClick : bool)
    (events : list (CopyEvent MouseEvent)) (st : CopyButton MouseEvent) : CopyButton MouseEvent :=
  snd (runState (copy_run onClick events) st).

(** The state is copied exactly while its timer is scheduled, and no other
    timer is. *)
Definition copy_consistent {MouseEvent : Type} (st : CopyButton MouseEvent) : Prop :=
  match timeoutRef st with
  | Some i => isCopied st = true /\ copy_timers st = [i]
  | None => isCopied st = false /\ copy_timers st = []
  end.

(** ** The commands of [wshserver.ts]

    Each method of [WshServerType] hands a command name to one of the two
    helpers of the store, with its data or with [null]. *)

Inductive WshMethod : Type :=
| AuthenticateCommand | ControllerInputCommand | ControllerRestartCommand
| CreateBlockCommand | DeleteBlockCommand | EventPublishCommand
| EventRecvCommand | EventSubCommand | EventUnsubCommand | EventUnsubAllCommand
| FileAppendCommand | FileAppendIJsonCommand | FileReadCommand | FileWriteCommand
| GetMetaCommand | MessageCommand | RemoteFileInfoCommand | RemoteStreamFileCommand
| ResolveIdsCommand | SetMetaCommand | SetViewCommand | StreamCpuDataCommand
| StreamTestCommand | StreamWaveAiCommand | TestCommand.

Definition WshMethods : list WshMethod :=
  [AuthenticateCommand; ControllerInputCommand; ControllerRestartCommand;
   CreateBlockCommand; DeleteBlockCommand; EventPublishCommand;
   EventRecvCommand; EventSubCommand; EventUnsubCommand; EventUnsubAllCommand;
   FileAppendCommand; FileAppendIJsonCommand; FileReadCommand; FileWriteCommand;
   GetMetaCommand; MessageCommand; RemoteFileInfoCommand; RemoteStreamFileCommand;
   ResolveIdsCommand; SetMetaCommand; SetViewCommand; StreamCpuDataCommand;
   StreamTestCommand; StreamWaveAiCommand; TestCommand].

Definition WshMethod_name (m : WshMethod) : string :=
  match m with
  | AuthenticateCommand => "AuthenticateCommand"
  | ControllerInputCommand => "ControllerInputCommand"
  | ControllerRestartCommand => "ControllerRestartCommand"
  | CreateBlockCommand => "CreateBlockCommand"
  | DeleteBlockCommand => "DeleteBlockCommand"
  | EventPublishCommand => "EventPublishCommand"
  | EventRecvCommand => "EventRecvCommand"
  | EventSubCommand => "EventSubCommand"
  | EventUnsubCommand => "EventUnsubCommand"
  | EventUnsubAllCommand => "EventUnsubAllCommand"
  | FileAppendCommand => "FileAppendCommand"
  | FileAppendIJsonCommand => "FileAppendIJsonCommand"
  | FileReadCommand => "FileReadCommand"
  | FileWriteCommand => "FileWriteCommand"
  | GetMetaCommand => "GetMetaCommand"
  | MessageCommand => "MessageCommand"
  | RemoteFileInfoCommand => "RemoteFileInfoCommand"
  | RemoteStreamFileCommand => "RemoteStreamFileCommand"
  | ResolveIdsCommand => "ResolveIdsCommand"
  | SetMetaCommand => "SetMetaCommand"
  | SetViewCommand => "SetViewCommand"
  | StreamCpuDataCommand => "StreamCpuDataCommand"
  | StreamTestCommand => "StreamTestCommand"
  | StreamWaveAiCommand => "StreamWaveAiCommand"
  | TestCommand => "TestCommand"
  end%string.

Inductive WshHelper : Type :=
| wshServerRpcHelper_call
| wshServerRpcHelper_responsestream.

(** The helper a method calls, the command name it passes, and whether it
    passes its [data] ([false]: it passes [null]). *)
Definition WshServerType (m : WshMethod) : WshHelper * string * bool :=
  match m with
  | AuthenticateCommand => (wshServerRpcHelper_call, "authenticate", true)
  | ControllerInputCommand => (wshServerRpcHelper_call, "controllerinput", true)
  | ControllerRestartCommand => (wshServerRpcHelper_call, "controllerrestart", true)
  | CreateBlockCommand => (wshServerRpcHelper_call, "createblock", true)
  | DeleteBlockCommand => (wshServerRpcHelper_call, "deleteblock", true)
  | EventPublishCommand => (wshServerRpcHelper_call, "eventpublish", true)
  | EventRecvCommand => (wshServerRpcHelper_call, "eventrecv", true)
  | EventSubCommand => (wshServerRpcHelper_call, "eventsub", true)
  | EventUnsubCommand => (wshServerRpcHelper_call, "eventunsub", true)
  | EventUnsubAllCommand => (wshServerRpcHelper_call, "eventunsuball", false)
  | FileAppendCommand => (wshServerRpcHelper_call, "fileappend", true)
  | FileAppendIJsonCommand => (wshServerRpcHelper_call, "fileappendijson", true)
  | FileReadCommand => (wshServerRpcHelper_call, "fileread", true)
  | FileWriteCommand => (wshServerRpcHelper_call, "filewrite", true)
  | GetMetaCommand => (wshServerRpcHelper_call, "getmeta", true)
  | MessageCommand => (wshServerRpcHelper_call, "message", true)
  | RemoteFileInfoCommand => (wshServerRpcHelper_call, "remotefileinfo", true)
  | RemoteStreamFileCommand => (wshServerRpcHelper_responsestream, "remotestreamfile", true)
  | ResolveIdsCommand => (wshServerRpcHelper_call, "resolveids", true)
  | SetMetaCommand => (wshServerRpcHelper_call, "setmeta", true)
  | SetViewCommand => (wshServerRpcHelper_call, "setview", true)
  | StreamCpuDataCommand => (wshServerRpcHelper_responsestream, "streamcpudata", true)
  | StreamTestCommand => (wshServerRpcHelper_responsestream, "streamtest", false)
  | StreamWaveAiCommand => (wshServerRpcHelper_responsestream, "streamwaveai", true)
  | TestCommand => (wshServerRpcHelper_call, "test", true)
  end%string.

Definition Wsh_command (m : WshMethod) : string := snd (fst (WshServerType m)).

(** An ASCII letter in lower case, and a string without its last
    [n] characters. *)
Definition lower_ascii (c : ascii) : ascii :=
  let n := Ascii.nat_of_ascii c in
  if (Nat.leb 65 n && Nat.leb n 90)%bool then Ascii.ascii_of_nat (n + 32) else c.

Fixpoint lower_string (s : string) : string :=
  match s with
  | EmptyString => EmptyString
  | String c rest => String (lower_ascii c) (lower_string rest)
  end.

Definition drop_suffix (n : nat) (s : string) : string :=
  String.substring 0 (String.length s - n) s.

(** Whether [p] occurs in [s]. *)
Fixpoint has_infix (p s : string) : bool :=
  String.prefix p s ||
  match s with
  | EmptyString => false
  | String _ rest => has_infix p rest
  end.

(** The state of the timers after the events, and what holds of it from
    the start: of the timers of the wrapper, only the one that [timeout]
    names can be scheduled. *)
Definition after {Args Ret Delay : Type} (callback : Args -> Ret) (waitFor : Delay)
    (events : list (Event Args)) (rt : Runtime Args Ret Delay) : Runtime Args Ret Delay :=
  snd (runState (run callback waitFor events) rt).

Definition one_timer {Args Ret Delay : Type} (rt : Runtime Args Ret Delay) : Prop :=
  timers rt = [] \/ exists t, timers rt = [t] /\ timeout rt = Some (timer_id t).

(** ** The exact value of a binary64 number

    The arithmetic of the program is binary64. A finite binary64 number is
    a rational number, its exact value; an infinity and NaN have none. *)

Definition signed (s : bool) (m : positive) : Z := if s then Zneg m else Zpos m.

Definition SF2Q (f : spec_float) : option Q :=
  match f with
  | S754_zero _ => Some 0%Q
  | S754_finite s m e => Some (inject_Z (signed s m) * 2 ^ e)%Q
  | S754_infinity _ => None
  | S754_nan => None
  end.

Definition value (f : float) : option Q := SF2Q (Prim2SF f).

(** The binary64 number [f] is finite and its exact value is [q]. *)
Definition denotes (f : float) (q : Q) : Prop :=
  match value f with
  | Some q' => (q' == q)%Q
  | None => False
  end.

(** The exact value of a finite number, and the rectangle and the pointer
    of the exact values. *)
Definition Qvalue (f : float) : Q :=
  match value f with Some q => q | None => 0%Q end.

Definition rectangle_value (R : Dimensions float) : Dimensions Q :=
  {| width := Qvalue (width R); height := Qvalue (height R);
     left := Qvalue (left R); top := Qvalue (top R) |}.

Definition pointer_value (P : XYCoord float) : XYCoord Q :=
  {| x := Qvalue (x P); y := Qvalue (y P) |}.

(** ** The tests of [determineDropDirection], one by one

    The conditions of the four [if] statements and [code] as it stands after
    the two sign tests, in the arithmetic of the numbers at hand. *)

Section TestsOfDetermineDropDirection.
Context {N : Type} `{JSNumber N}.
Variables (R : Dimensions N) (P : XYCoord N).
Local Open Scope js_scope.

Definition outside_test : bool :=
  let x := x P - left R in
  let y := y P - top R in
  (y <? lit 0) || (y >? height R) || (x <? lit 0) || (x >? width R).

Definition center_test : bool :=
  let x := x P - left R in
  let y := y P - top R in
  (x >? (lit 2 * width R) / lit 5) && (x <? (lit 3 * width R) / lit 5) &&
  (y >? (lit 2 * height R) / lit 5) && (y <? (lit 3 * height R) / lit 5).

Definition diagonal_test : bool :=
  let x := x P - left R in
  let y := y P - top R in
  (y * width R - x * height R ==? lit 0) ||
  (y * width R + x * height R - height R * width R ==? lit 0).

Definition quadrant_test : Z :=
  let x := x P - left R in
  let y := y P - top R in
  let code := 0%Z in
  let code :=
    if y * width R + x * height R - height R * width R >? lit 0
    then (code + 1)%Z else code in
  if y * width R - x * height R >? lit 0 then (5 - (code + 2))%Z else code.

Definition margin_test : bool :=
  let x := x P - left R in
  let y := y P - top R in
  (y <? height R / lit 5) || (y >? height R - height R / lit 5) ||
  (x <? width R / lit 5) || (x >? width R - width R / lit 5).

End TestsOfDetermineDropDirection.

(** ** A run of [determineDropDirection] without rounding

    [R] and [P] are the binary64 rectangle and pointer that the function
    receives, [RQ] and [PQ] the rectangle and the pointer of their exact
    values. Each predicate says of some of the numbers that the function
    computes that they are finite and equal to what exact arithmetic gives:
    nothing was rounded, nothing overflowed. *)

Section ExactRun.
Variables (R : Dimensions float) (P : XYCoord float).
Variables (RQ : Dimensions Q) (PQ : XYCoord Q).
Local Open Scope js_scope.

Definition denotes_rectangle : Prop :=
  denotes (width R) (width RQ) /\ denotes (height R) (height RQ) /\
  denotes (left R) (left RQ) /\ denotes (top R) (top RQ).

Definition denotes_pointer : Prop :=
  denotes (x P) (x PQ) /\ denotes (y P) (y PQ).

(** [x -= left] and [y -= top]. *)
Definition exact_offset : Prop :=
  denotes (x P - left R)%js (relX RQ PQ) /\
  denotes (y P - top R)%js (relY RQ PQ).

(** [centerX1], [centerX2], [centerY1], [centerY2]. *)
Definition exact_center_bounds : Prop :=
  denotes ((lit 2 * width R) / lit 5)%js (2 * width RQ / 5)%Q /\
  denotes ((lit 3 * width R) / lit 5)%js (3 * width RQ / 5)%Q /\
  denotes ((lit 2 * height R) / lit 5)%js (2 * height RQ / 5)%Q /\
  denotes ((lit 3 * height R) / lit 5)%js (3 * height RQ / 5)%Q.

(** [diagonal1] and [diagonal2]. *)
Definition exact_diagonals : Prop :=
  let x := (x P - left R)%js in
  let y := (y P - top R)%js in
  denotes (y * width R - x * height R)%js (diagonal1 RQ PQ) /\
  denotes (y * width R + x * height R - height R * width R)%js (diagonal2 RQ PQ).

(** [xOuter1], [xOuter2], [yOuter1], [yOuter2]. *)
Definition exact_margin_bounds : Prop :=
  denotes (width R / lit 5)%js (width RQ / 5)%Q /\
  denotes (width R - width R / lit 5)%js (width RQ - width RQ / 5)%Q /\
  denotes (height R / lit 5)%js (height RQ / 5)%Q /\
  denotes (height R - height R / lit 5)%js (height RQ - height RQ / 5)%Q.

(** The numbers that reach the first test, and the whole run. *)
Definition exact_box : Prop :=
  denotes_rectangle /\ denotes_pointer /\ exact_offset.

Definition exact_run : Prop :=
  exact_box /\ exact_center_bounds /\ exact_diagonals /\ exact_margin_bounds.

End ExactRun.

(** The binary64 number nearest to [n / 10], which a decimal literal with
    one decimal place denotes, and the rectangle and the pointer of four and
    of two numbers. *)
Definition tenths (n : Z) : float := PrimFloat.div (float_of_Z n) (float_of_Z 10).

Definition rectangle (w h l t : float) : Dimensions float :=
  {| width := w; height := h; left := l; top := t |}.
Definition point (a b : float) : XYCoord float := {| x := a; y := b |}.

(** The square of side 100 at the origin and a pointer of integers, in
    binary64. *)
Definition square64 : Dimensions float := rect100.
Definition pointer64 (a b : Z) : XYCoord float := pt a b.

(** ** A run of [checkForCursorBounds] without rounding

    [container] and [offset] are the binary64 rectangle of the display
    container and the cursor point, [CQ] and [OQ] those of their exact
    values. *)

Section ExactBounds.
Variables (container : DOM.DOMRect float) (offset : XYCoord float).
Variables (CQ : DOM.DOMRect Q) (OQ : XYCoord Q).
Local Open Scope js_scope.

Definition denotes_size : Prop :=
  denotes (DOM.width container) (DOM.width CQ) /\
  denotes (DOM.height container) (DOM.height CQ).

(** [normalizedX] and [normalizedY]. *)
Definition exact_normalized : Prop :=
  denotes (x offset - DOM.x container)%js (relX (Dimensions_of_DOMRect CQ) OQ) /\
  denotes (y offset - DOM.y container)%js (relY (Dimensions_of_DOMRect CQ) OQ).

End ExactBounds.

(** The rectangle of the display container and the rectangle of its exact
    values. *)
Definition DOMRect64 (a b w h : float) : DOM.DOMRect float :=
  {| DOM.x := a; DOM.y := b; DOM.width := w; DOM.height := h |}.

Definition DOMRect_value (c : DOM.DOMRect float) : DOM.DOMRect Q :=
  {| DOM.x := Qvalue (DOM.x c); DOM.y := Qvalue (DOM.y c);
     DOM.width := Qvalue (DOM.width c); DOM.height := Qvalue (DOM.height c) |}.

(** * Properties *)

(** ** Comparisons of rationals *)

Lemma Qltb_lt (a b : Q) : Qltb a b = true <-> (a < b)%Q.
Proof.
  unfold Qltb. rewrite Qlt_alt. destruct (a ?= b)%Q; split; congruence.
Qed.

Lemma Qltb_reflect (a b : Q) : reflect (a < b)%Q (Qltb a b).
Proof. apply iff_reflect. symmetry. apply Qltb_lt. Qed.

Lemma Qeq_bool_reflect (a b : Q) : reflect (a == b)%Q (Qeq_bool a b).
Proof. apply iff_reflect. symmetry. apply Qeq_bool_iff. Qed.

(** ** [determineDropDirection] on any numbers

    Whatever the arithmetic does, binary64 with its rounding, infinities and
    NaN included, a result that is not [undefined] is the number of a drop
    direction. *)

(** X1. For every arithmetic of the numbers, a result of
    [determineDropDirection] that is not [undefined] is the number of one of
    the nine drop directions. *)
Lemma determineDropDirection_range {N : Type} `{JSNumber N}
    (dimensions : option (Dimensions N)) (offset : option (XYCoord N)) (code : Z) :
  determineDropDirection dimensions offset = Some code ->
  exists d, code = DropDirection_value d.
Proof.
  unfold determineDropDirection.
  destruct offset as [offset |], dimensions as [dimensions |]; try discriminate.
  cbv zeta.
  repeat match goal with
         | |- context [if ?c then _ else _] => destruct c
         end;
    intros E; try discriminate E; injection E as <-;
    first [ now exists Top | now exists Right | now exists Bottom | now exists Left
          | now exists OuterTop | now exists OuterRight | now exists OuterBottom
          | now exists OuterLeft | now exists Center ].
Qed.

(** ** [determineDropDirection] over the rationals, test by test *)

Section Tests.
Local Open Scope Q_scope.
Variables (R : Dimensions Q) (P : XYCoord Q).

Let X := relX R P.
Let Y := relY R P.
Let W := width R.
Let H := height R.

Lemma determineDropDirection_tests :
  determineDropDirection (Some R) (Some P) =
  if Qltb Y 0 || Qltb H Y || Qltb X 0 || Qltb W X then None else
  if Qltb (2 * W * (1 # 5)) X && Qltb X (3 * W * (1 # 5)) &&
     Qltb (2 * H * (1 # 5)) Y && Qltb Y (3 * H * (1 # 5))
  then Some 8%Z else
  if Qeq_bool (diagonal1 R P) 0 || Qeq_bool (diagonal2 R P) 0 then None else
  Some (if Qltb Y (H * (1 # 5)) || Qltb (H - H * (1 # 5)) Y ||
           Qltb X (W * (1 # 5)) || Qltb (W - W * (1 # 5)) X
        then (quadrant_code R P + 4)%Z else quadrant_code R P).
Proof. reflexivity. Qed.

End Tests.

(** Decides the tests of [determineDropDirection_tests] one at a time, and
    closes the cases that the hypotheses exclude. *)
Ltac decide_test :=
  match goal with
  | |- context [Qltb ?a ?b] => destruct (Qltb_reflect a b)
  | |- context [Qeq_bool ?a ?b] => destruct (Qeq_bool_reflect a b)
  end;
  cbn [orb andb]; try (exfalso; lra).

Ltac by_tests :=
  rewrite determineDropDirection_tests;
  unfold quadrant_code, diagonal1, diagonal2,
    within, strictly_inside, outside, in_center, in_outer_margin, relX, relY in *;
  repeat decide_test.

Section Cases.
Local Open Scope Q_scope.
Variables (R : Dimensions Q) (P : XYCoord Q).

Lemma outside_undefined :
  outside R P -> determineDropDirection (Some R) (Some P) = None.
Proof. intros Hout. by_tests; reflexivity. Qed.

Lemma center_Center :
  positive_size R -> in_center R P ->
  determineDropDirection (Some R) (Some P) = Some (DropDirection_value Center).
Proof. intros [Hw Hh] Hc. by_tests; reflexivity. Qed.

Lemma not_center_not_Center :
  ~ in_center R P ->
  determineDropDirection (Some R) (Some P) <> Some (DropDirection_value Center).
Proof. intros Hc. by_tests; cbn; try discriminate. Qed.

End Cases.

(** ** The diagonals and the triangles, by cross-multiplication *)

Section Diagonals.
Local Open Scope Q_scope.
Variables (R : Dimensions Q) (P : XYCoord Q).
Hypothesis Hsize : positive_size R.

Let area := height R * width R.

Lemma area_pos : 0 < area.
Proof. destruct Hsize. apply Qmult_lt_0_compat; assumption. Qed.

Lemma unitX_area : unitX R P * area == relX R P * height R.
Proof.
  destruct Hsize as [Hw Hh]. unfold unitX, area. field.
  intros E. rewrite E in Hw. discriminate.
Qed.

Lemma unitY_area : unitY R P * area == relY R P * width R.
Proof.
  destruct Hsize as [Hw Hh]. unfold unitY, area. field.
  intros E. rewrite E in Hh. discriminate.
Qed.

Lemma anti_area : (1 - unitX R P) * area == height R * width R - relX R P * height R.
Proof.
  setoid_replace ((1 - unitX R P) * area) with (area - unitX R P * area) by ring.
  rewrite unitX_area. reflexivity.
Qed.

Lemma below_main : unitX R P < unitY R P <-> 0 < diagonal1 R P.
Proof.
  rewrite <- (Qmult_lt_r _ _ area area_pos), unitX_area, unitY_area.
  unfold diagonal1. split; intros; lra.
Qed.

Lemma above_main : unitY R P < unitX R P <-> diagonal1 R P < 0.
Proof.
  rewrite <- (Qmult_lt_r _ _ area area_pos), unitX_area, unitY_area.
  unfold diagonal1. split; intros; lra.
Qed.

Lemma below_anti : 1 - unitX R P < unitY R P <-> 0 < diagonal2 R P.
Proof.
  rewrite <- (Qmult_lt_r _ _ area area_pos), anti_area, unitY_area.
  unfold diagonal2. split; intros; lra.
Qed.

Lemma above_anti : unitY R P < 1 - unitX R P <-> diagonal2 R P < 0.
Proof.
  rewrite <- (Qmult_lt_r _ _ area area_pos), anti_area, unitY_area.
  unfold diagonal2. split; intros; lra.
Qed.

Lemma main_diagonal_zero : on_main_diagonal R P <-> diagonal1 R P == 0.
Proof.
  unfold on_main_diagonal.
  pose proof below_main. pose proof above_main.
  split; intros; lra.
Qed.

Lemma anti_diagonal_zero : on_anti_diagonal R P <-> diagonal2 R P == 0.
Proof.
  unfold on_anti_diagonal.
  pose proof below_anti. pose proof above_anti.
  split; intros; lra.
Qed.

(** Off the diagonals, a pointer is in one of the four triangles. *)
Lemma quadrant_exists :
  ~ on_main_diagonal R P -> ~ on_anti_diagonal R P ->
  exists d, in_quadrant R P d /\ outer d <> d.
Proof.
  unfold on_main_diagonal, on_anti_diagonal. intros Hm Ha.
  destruct (Qlt_le_dec (unitY R P) (unitX R P)) as [m | m],
           (Qlt_le_dec (unitY R P) (1 - unitX R P)) as [a | a].
  - exists Top. cbn. repeat split; try lra; discriminate.
  - exists Right. cbn. repeat split; try lra; discriminate.
  - exists Left. cbn. repeat split; try lra; discriminate.
  - exists Bottom. cbn. repeat split; try lra; discriminate.
Qed.

(** Which code the two sign tests compute in each triangle. *)
Lemma quadrant_code_value (d : DropDirection) :
  in_quadrant R P d -> quadrant_code R P = DropDirection_value d.
Proof.
  pose proof below_main. pose proof above_main.
  pose proof below_anti. pose proof above_anti.
  unfold quadrant_code.
  destruct d; cbn [in_quadrant]; intros Hq; try contradiction;
    repeat decide_test; reflexivity.
Qed.

End Diagonals.

Section Directions.
Local Open Scope Q_scope.
Variables (R : Dimensions Q) (P : XYCoord Q).
Hypothesis Hsize : positive_size R.

Lemma in_center_dec : {in_center R P} + {~ in_center R P}.
Proof.
  unfold in_center.
  destruct (Qlt_le_dec ((2 # 5) * width R) (relX R P));
    [| right; intros ?; lra].
  destruct (Qlt_le_dec (relX R P) ((3 # 5) * width R));
    [| right; intros ?; lra].
  destruct (Qlt_le_dec ((2 # 5) * height R) (relY R P));
    [| right; intros ?; lra].
  destruct (Qlt_le_dec (relY R P) ((3 # 5) * height R));
    [| right; intros ?; lra].
  left. repeat split; assumption.
Qed.

Lemma in_outer_margin_dec : {in_outer_margin R P} + {~ in_outer_margin R P}.
Proof.
  unfold in_outer_margin.
  destruct (Qlt_le_dec (relX R P) ((1 # 5) * width R)); [left; lra |].
  destruct (Qlt_le_dec (width R - relX R P) ((1 # 5) * width R)); [left; lra |].
  destruct (Qlt_le_dec (relY R P) ((1 # 5) * height R)); [left; lra |].
  destruct (Qlt_le_dec (height R - relY R P) ((1 # 5) * height R)); [left; lra |].
  right. intros ?; lra.
Qed.

(** Outside the centre, the triangle [d] gives [d] itself away from the
    margin and its outer variant in the margin. *)
Lemma quadrant_direction (d : DropDirection) :
  within R P -> ~ in_center R P -> in_quadrant R P d ->
  (in_outer_margin R P ->
   determineDropDirection (Some R) (Some P) = Some (DropDirection_value (outer d))) /\
  (~ in_outer_margin R P ->
   determineDropDirection (Some R) (Some P) = Some (DropDirection_value d)).
Proof.
  intros Hin Hc Hq.
  rewrite determineDropDirection_tests, (quadrant_code_value R P Hsize d Hq).
  pose proof (below_main R P Hsize). pose proof (above_main R P Hsize).
  pose proof (below_anti R P Hsize). pose proof (above_anti R P Hsize).
  unfold diagonal1, diagonal2, within, in_center, in_outer_margin, relX, relY in *.
  destruct d; cbn [in_quadrant] in Hq; try contradiction;
    split; intros Hm; repeat decide_test; reflexivity.
Qed.

Lemma diagonal_undefined :
  within R P -> ~ in_center R P -> on_diagonal R P ->
  determineDropDirection (Some R) (Some P) = None.
Proof.
  intros Hin Hc Hd.
  assert (diagonal1 R P == 0 \/ diagonal2 R P == 0) as Hz.
  { destruct Hd as [Hd | Hd]; [left | right].
    - apply main_diagonal_zero; assumption.
    - apply anti_diagonal_zero; assumption. }
  clear Hd. by_tests; reflexivity.
Qed.

(** Half a turn about the centre. *)
Lemma relX_rotate180 : relX R (rotate180 R P) == width R - relX R P.
Proof. unfold relX, rotate180; cbn [x]. field. Qed.

Lemma relY_rotate180 : relY R (rotate180 R P) == height R - relY R P.
Proof. unfold relY, rotate180; cbn [y]. field. Qed.

Lemma unitX_rotate180 : unitX R (rotate180 R P) == 1 - unitX R P.
Proof.
  destruct Hsize as [Hw Hh]. unfold unitX. rewrite relX_rotate180. field.
  intros E. rewrite E in Hw. discriminate.
Qed.

Lemma unitY_rotate180 : unitY R (rotate180 R P) == 1 - unitY R P.
Proof.
  destruct Hsize as [Hw Hh]. unfold unitY. rewrite relY_rotate180. field.
  intros E. rewrite E in Hh. discriminate.
Qed.

Lemma in_quadrant_rotate180 (d : DropDirection) :
  in_quadrant R P d -> in_quadrant R (rotate180 R P) (opposite d).
Proof.
  pose proof unitX_rotate180. pose proof unitY_rotate180.
  destruct d; cbn [in_quadrant opposite]; intros Hq; try contradiction; lra.
Qed.

Lemma in_center_rotate180 : in_center R P <-> in_center R (rotate180 R P).
Proof.
  pose proof relX_rotate180. pose proof relY_rotate180.
  unfold in_center. split; intros; lra.
Qed.

Lemma in_outer_margin_rotate180 :
  in_outer_margin R P <-> in_outer_margin R (rotate180 R P).
Proof.
  pose proof relX_rotate180. pose proof relY_rotate180.
  unfold in_outer_margin. split; intros; lra.
Qed.

Lemma within_rotate180 : within R P -> within R (rotate180 R P).
Proof.
  pose proof relX_rotate180. pose proof relY_rotate180.
  unfold within. intros; lra.
Qed.

End Directions.

Lemma strictly_inside_within (R : Dimensions Q) (P : XYCoord Q) :
  strictly_inside R P -> within R P.
Proof. unfold strictly_inside, within. intros; lra. Qed.


Lemma opposite_outer (d : DropDirection) : opposite (outer d) = outer (opposite d).
Proof. destruct d; reflexivity. Qed.

(** The tests give the same answers on equal rationals. *)
Lemma Qltb_compat (a a' b b' : Q) :
  (a == a')%Q -> (b == b')%Q -> Qltb a b = Qltb a' b'.
Proof.
  intros Ha Hb.
  destruct (Qltb_reflect a b), (Qltb_reflect a' b'); try reflexivity; exfalso; lra.
Qed.

Lemma Qeq_bool_compat (a a' b b' : Q) :
  (a == a')%Q -> (b == b')%Q -> Qeq_bool a b = Qeq_bool a' b'.
Proof.
  intros Ha Hb.
  destruct (Qeq_bool_reflect a b), (Qeq_bool_reflect a' b'); try reflexivity; exfalso; lra.
Qed.

(** ** [determineDropDirection]: the drop zones *)

Section DropZones.
Local Open Scope Q_scope.

Lemma direction_exists (R : Dimensions Q) (P : XYCoord Q) :
  positive_size R -> within R P ->
  ~ on_main_diagonal R P -> ~ on_anti_diagonal R P ->
  exists d, determineDropDirection (Some R) (Some P) = Some (DropDirection_value d).
Proof.
  intros Hsize Hin Hm Ha.
  destruct (in_center_dec R P) as [Hc | Hc].
  - exists Center. apply center_Center; assumption.
  - destruct (quadrant_exists R P Hm Ha) as (d & Hq & _).
    destruct (quadrant_direction R P Hsize d Hin Hc Hq) as [Hout Hinn].
    destruct (in_outer_margin_dec R P) as [Hmg | Hmg].
    + exists (outer d). auto.
    + exists d. auto.
Qed.

(** In exact arithmetic: for a rectangle of positive width and height and a
    pointer strictly inside it, on neither diagonal, outside the centre
    region and in the outer fifth along either axis, the function gives the
    outer variant of the triangle the pointer is in. *)
Lemma outer_margin_outer_variant (R : Dimensions Q) (P : XYCoord Q) :
  positive_size R -> strictly_inside R P ->
  ~ on_main_diagonal R P -> ~ on_anti_diagonal R P ->
  ~ in_center R P -> in_outer_margin R P ->
  exists d, in_quadrant R P d /\
    determineDropDirection (Some R) (Some P) = Some (DropDirection_value (outer d)).
Proof.
  intros Hsize Hin Hm Ha Hc Hmg.
  destruct (quadrant_exists R P Hm Ha) as (d & Hq & _).
  exists d. split; [exact Hq |].
  apply (quadrant_direction R P Hsize d); auto using strictly_inside_within.
Qed.

(** In exact arithmetic: for a rectangle of positive width and height and a
    pointer within it, the function gives Center exactly when the pointer,
    relative to the origin of the rectangle, is strictly between 2/5 and
    3/5 of the width and strictly between 2/5 and 3/5 of the height. *)
Lemma Center_iff_in_center (R : Dimensions Q) (P : XYCoord Q) :
  positive_size R -> within R P ->
  (determineDropDirection (Some R) (Some P) = Some (DropDirection_value Center)
   <-> in_center R P).
Proof.
  intros Hsize Hin. split.
  - intros E. destruct (in_center_dec R P) as [Hc | Hc]; [exact Hc |].
    exfalso. exact (not_center_not_Center R P Hc E).
  - apply center_Center; assumption.
Qed.

(** In exact arithmetic: for a rectangle of positive width and height and a
    pointer strictly inside it and on neither diagonal, half a turn about the
    centre of the rectangle exchanges Top with Bottom and Left with Right,
    likewise their outer variants, and keeps Center. *)
Lemma half_turn_opposite_direction (R : Dimensions Q) (P : XYCoord Q) :
  positive_size R -> strictly_inside R P ->
  ~ on_main_diagonal R P -> ~ on_anti_diagonal R P ->
  exists d,
    determineDropDirection (Some R) (Some P) = Some (DropDirection_value d) /\
    determineDropDirection (Some R) (Some (rotate180 R P))
    = Some (DropDirection_value (opposite d)).
Proof.
  intros Hsize Hin Hm Ha.
  apply strictly_inside_within in Hin.
  pose proof (within_rotate180 R P Hin) as Hin'.
  destruct (in_center_dec R P) as [Hc | Hc].
  - exists Center. split.
    + apply center_Center; assumption.
    + apply center_Center; [assumption |].
      apply (proj1 (in_center_rotate180 R P)); assumption.
  - assert (~ in_center R (rotate180 R P)) as Hc'.
    { intros Hc'. apply Hc. apply (proj2 (in_center_rotate180 R P)); assumption. }
    destruct (quadrant_exists R P Hm Ha) as (d & Hq & _).
    pose proof (in_quadrant_rotate180 R P Hsize d Hq) as Hq'.
    destruct (quadrant_direction R P Hsize d Hin Hc Hq) as [Hout Hinn].
    destruct (quadrant_direction R (rotate180 R P) Hsize (opposite d) Hin' Hc' Hq')
      as [Hout' Hinn'].
    destruct (in_outer_margin_dec R P) as [Hmg | Hmg].
    + exists (outer d). split; [auto |].
      rewrite opposite_outer. apply Hout'.
      apply (proj1 (in_outer_margin_rotate180 R P)); assumption.
    + exists d. split; [auto |].
      apply Hinn'. intros Hmg'. apply Hmg.
      apply (proj2 (in_outer_margin_rotate180 R P)); assumption.
Qed.

End DropZones.

(** ** The rectangle of 100 by 100 *)

(** Closes a comparison of two rational constants. *)
Ltac compare_constants :=
  vm_compute;
  first [ reflexivity | discriminate
        | let E := fresh in intros E; discriminate E ].

Section Scenarios.
Local Open Scope Q_scope.

Lemma square_positive : positive_size square.
Proof. split; compare_constants. Qed.

(** The scenarios of the rectangle of 100 by 100, in binary64. *)
Example scenarios_binary64 :
  let square : Dimensions float := rect100 in
  map (fun P => determineDropDirection (Some square) (Some P))
      [pt 50 50; pt 5 50; pt 50 5; pt 150 50; pt 30 30]
  = [Some (DropDirection_value Center); Some (DropDirection_value OuterLeft);
     Some (DropDirection_value OuterTop); None; None].
Proof. vm_compute. reflexivity. Qed.

(** A missing rectangle or a missing pointer gives [undefined]. *)
Lemma missing_argument_undefined {N : Type} `{JSNumber N}
    (R : option (Dimensions N)) (P : option (XYCoord N)) :
  R = None \/ P = None -> determineDropDirection R P = None.
Proof. intros [-> | ->]; [destruct P |]; reflexivity. Qed.

End Scenarios.

(** ** [canDrop] *)

Lemma strict_neq_true (a : option string) (b : string) :
  strict_neq a b = true <-> a <> Some b.
Proof.
  destruct a as [s |]; cbn.
  - rewrite negb_true_iff. destruct (String.eqb_spec s b) as [-> | Hne].
    + split; [discriminate | intros Hn; contradiction Hn; reflexivity].
    + split; [intros _ E; injection E as E; contradiction | reflexivity].
  - split; [discriminate | reflexivity].
Qed.

(** C7. [canDrop] returns true only when the monitor reports a shallow hover
    and the identifier of the dragged node differs from the identifier of the
    node of the target; a node is never a candidate target of its own drop. *)
Theorem canDrop_shallow_hover_of_another_node
    (layoutNode : LayoutNode) (monitor : DropTargetMonitor) :
  canDrop layoutNode monitor = true ->
  isOver monitor true = true /\
  option_map id (getItem monitor) <> Some (id layoutNode) /\
  getItem monitor <> Some layoutNode.
Proof.
  unfold canDrop. intros Hc.
  destruct (isOver monitor true) eqn:Hover; cbn [andb] in Hc; [| discriminate Hc].
  destruct (strict_neq (option_map id (getItem monitor)) (id layoutNode)) eqn:Hneq;
    [| discriminate Hc].
  apply strict_neq_true in Hneq.
  repeat split; [exact Hneq |].
  intros E. apply Hneq. rewrite E. reflexivity.
Qed.

Lemma canDrop_shallow_hover_of_another_node_witness :
  canDrop {| id := "b" |}
    {| getItem := Some {| id := "a" |}; isOver_shallow := true; isOver_deep := true |}
  = true /\
  option_map id (Some {| id := "a" |}) <> Some "b"%string.
Proof.
  split; [reflexivity |].
  exact (proj1 (proj2 (canDrop_shallow_hover_of_another_node
           {| id := "b" |}
           {| getItem := Some {| id := "a" |}; isOver_shallow := true; isOver_deep := true |}
           eq_refl))).
Defined.

(** The converse, and the node dropped onto itself. *)
Lemma canDrop_true (layoutNode : LayoutNode) (monitor : DropTargetMonitor) :
  isOver monitor true = true ->
  option_map id (getItem monitor) <> Some (id layoutNode) ->
  canDrop layoutNode monitor = true.
Proof.
  intros Hover Hneq. unfold canDrop.
  rewrite Hover, (proj2 (strict_neq_true _ _) Hneq). reflexivity.
Qed.

Lemma canDrop_self (layoutNode : LayoutNode) (monitor : DropTargetMonitor) :
  getItem monitor = Some layoutNode -> canDrop layoutNode monitor = false.
Proof.
  intros E. unfold canDrop. rewrite E. cbn [option_map strict_neq].
  rewrite String.eqb_refl, andb_false_r. reflexivity.
Qed.

(** ** [setTransform] *)

(** C8. For every rectangle and every [setSize], [setTransform] returns an
    absolutely positioned placement that translates by ([left], [top]), whose
    [top] and [left] are 0, and whose [width] and [height], in px, are present
    exactly when [setSize] is true, which it is when it is omitted. *)
Theorem setTransform_placement
    {N : Type} `{JSNumber N} (toString : N -> string)
    (dimensions : Dimensions N) (setSize : option bool) :
  let placement := setTransform toString dimensions setSize in
  let translate :=
    ("translate(" ++ toString (left dimensions) ++ "px,"
                  ++ toString (top dimensions) ++ "px)")%string in
  CSS.position placement = "absolute"%string /\
  CSS.transform placement = translate /\
  CSS.WebkitTransform placement = translate /\
  CSS.MozTransform placement = translate /\
  CSS.msTransform placement = translate /\
  CSS.OTransform placement = translate /\
  CSS.top placement = lit 0 /\
  CSS.left placement = lit 0 /\
  CSS.width placement =
    match setSize with
    | Some false => None
    | _ => Some (toString (width dimensions) ++ "px")%string
    end /\
  CSS.height placement =
    match setSize with
    | Some false => None
    | _ => Some (toString (height dimensions) ++ "px")%string
    end /\
  setTransform toString dimensions None = setTransform toString dimensions (Some true).
Proof.
  cbv zeta. unfold setTransform. cbn.
  repeat split; destruct setSize as [[|] |]; reflexivity.
Qed.

Example setTransform_run :
  setTransform integer_toString
    {| width := 30; height := 40; left := -7; top := 12 |}%Q (Some false)
  = {| CSS.top := 0%Q; CSS.left := 0%Q;
       CSS.transform := "translate(-7px,12px)";
       CSS.WebkitTransform := "translate(-7px,12px)";
       CSS.MozTransform := "translate(-7px,12px)";
       CSS.msTransform := "translate(-7px,12px)";
       CSS.OTransform := "translate(-7px,12px)";
       CSS.width := None; CSS.height := None;
       CSS.position := "absolute" |}.
Proof. reflexivity. Qed.

(** ** [reverseFlexDirection] *)

(** C10. [reverseFlexDirection] is an involution without a fixed point. *)
Theorem reverseFlexDirection_involution (d : FlexDirection) :
  reverseFlexDirection (reverseFlexDirection d) = d /\ reverseFlexDirection d <> d.
Proof. destruct d; split; cbn; try reflexivity; discriminate. Qed.

(** ** [debounce] *)

Section DebounceProperties.
Variables Args Ret Delay : Type.
Variables (callback : Args -> Ret) (waitFor : Delay).

Lemma nth_fresh {A : Type} (l : list A) (v d : A) : nth (List.length l) (l ++ [v]) d = v.
Proof. rewrite app_nth2, Nat.sub_diag by apply Nat.le_refl. reflexivity. Qed.

Lemma debounce_undefined (args : Args) (rt : Runtime Args Ret Delay) :
  fst (runState (debounce callback waitFor args) rt) = None.
Proof.
  unfold debounce. cbn.
  destruct (timeout rt); cbn; apply nth_fresh.
Qed.

(** C9. Every invocation of the wrapper that [debounce] returns gives
    [undefined] to its caller, whatever the callback returns and whatever
    the wait is: in every state of the timers, and so at every invocation
    of every course of invocations and firings of timers. *)
Theorem debounce_returns_undefined :
  (forall (args : Args) (rt : Runtime Args Ret Delay),
      fst (runState (debounce callback waitFor args) rt) = None) /\
  (forall (events : list (Event Args)) (rt : Runtime Args Ret Delay),
      Forall (fun v => v = None) (fst (runState (run callback waitFor events) rt))).
Proof.
  split; [exact debounce_undefined |].
  induction events as [| [args | i] events IH]; intros rt.
  - constructor.
  - cbn [run].
    change (runState (bind (debounce callback waitFor args)
              (fun v => bind (run callback waitFor events) (fun vs => ret (v :: vs)))) rt)
      with (let (v, rt') := runState (debounce callback waitFor args) rt in
            let (vs, rt'') := runState (run callback waitFor events) rt' in
            (v :: vs, rt'')).
    pose proof (debounce_undefined args rt) as Hv.
    destruct (runState (debounce callback waitFor args) rt) as [v rt'].
    specialize (IH rt').
    destruct (runState (run callback waitFor events) rt') as [vs rt''].
    cbn in *. constructor; assumption.
  - cbn [run].
    change (runState (bind (fire callback i) (fun _ => run callback waitFor events)) rt)
      with (let (_, rt') := runState (fire callback i) rt in
            runState (run callback waitFor events) rt').
    destruct (runState (fire callback i) rt) as [u rt'].
    apply IH.
Qed.

End DebounceProperties.

(** The callback does run, once the timer fires: the last of two invocations
    wins, and its result reaches the variable that nobody reads. *)
Example debounce_run :
  runState (run (fun n : nat => (n + 1)%nat) 30%nat [Invoke 1%nat; Invoke 2%nat; Fire 1%nat; Fire 2%nat])
           initial
  = ([None; None],
     {| next_timer := 3%nat; timers := []; timeout := Some 2%nat;
        results := [None; Some 3%nat] |}).
Proof. reflexivity. Qed.

(** * Further properties

    The lemmas on the drop zones in exact arithmetic come first; the
    properties of the program, which runs in binary64, follow them. *)

(** ** [determineDropDirection]: when it is undefined, the inner triangles,
    the edges *)

Section MoreDropZones.
Local Open Scope Q_scope.
Variables (R : Dimensions Q) (P : XYCoord Q).

Lemma outside_dec : {outside R P} + {within R P}.
Proof.
  unfold outside, within.
  destruct (Qlt_le_dec (relX R P) 0); [left; lra |].
  destruct (Qlt_le_dec (width R) (relX R P)); [left; lra |].
  destruct (Qlt_le_dec (relY R P) 0); [left; lra |].
  destruct (Qlt_le_dec (height R) (relY R P)); [left; lra |].
  right. lra.
Qed.

Lemma within_not_outside : within R P -> ~ outside R P.
Proof. unfold within, outside. intros; lra. Qed.

(** A zero of one of the two diagonal expressions, outside the centre. *)
Lemma zero_diagonal_undefined :
  within R P -> ~ in_center R P ->
  diagonal1 R P == 0 \/ diagonal2 R P == 0 ->
  determineDropDirection (Some R) (Some P) = None.
Proof. intros Hin Hc Hz. by_tests; reflexivity. Qed.

(** A result is one of: [undefined] (outside, or on a diagonal), Center. *)
Lemma undefined_cases :
  positive_size R ->
  determineDropDirection (Some R) (Some P) = None ->
  outside R P \/ (on_diagonal R P /\ ~ in_center R P).
Proof.
  intros Hsize E.
  destruct outside_dec as [Hout | Hin]; [left; exact Hout | right].
  destruct (in_center_dec R P) as [Hc | Hc].
  { rewrite (center_Center R P Hsize Hc) in E. discriminate E. }
  split; [| exact Hc].
  destruct (Qeq_dec (unitY R P) (unitX R P)) as [Hm | Hm]; [left; exact Hm |].
  destruct (Qeq_dec (unitY R P) (1 - unitX R P)) as [Ha | Ha]; [right; exact Ha |].
  destruct (direction_exists R P Hsize Hin Hm Ha) as [d Hd].
  rewrite Hd in E. discriminate E.
Qed.

(** In exact arithmetic: for a rectangle of positive width and height, the
    function gives [undefined] exactly when the pointer is outside the
    rectangle, or on a diagonal and not in the centre region. *)
Lemma undefined_iff_outside_or_diagonal :
  positive_size R ->
  (determineDropDirection (Some R) (Some P) = None
   <-> outside R P \/ (on_diagonal R P /\ ~ in_center R P)).
Proof.
  intros Hsize. split.
  - apply undefined_cases; assumption.
  - intros [Hout | [Hd Hc]].
    + apply outside_undefined; assumption.
    + destruct outside_dec as [Hout | Hin].
      * apply outside_undefined; assumption.
      * apply diagonal_undefined; assumption.
Qed.

(** In exact arithmetic: strictly inside the rectangle, on neither diagonal,
    outside the centre region and outside the outer fifths, the result is
    the inner direction of the triangle the pointer is in. *)
Lemma inner_region_inner_variant :
  positive_size R -> strictly_inside R P ->
  ~ on_main_diagonal R P -> ~ on_anti_diagonal R P ->
  ~ in_center R P -> ~ in_outer_margin R P ->
  exists d, in_quadrant R P d /\ outer d <> d /\
    determineDropDirection (Some R) (Some P) = Some (DropDirection_value d).
Proof.
  intros Hsize Hin Hm Ha Hc Hmg.
  destruct (quadrant_exists R P Hm Ha) as (d & Hq & Hd).
  exists d. repeat split; [exact Hq | exact Hd |].
  apply (quadrant_direction R P Hsize d); auto using strictly_inside_within.
Qed.

Lemma unitX_scaled : positive_size R -> relX R P == unitX R P * width R.
Proof.
  intros [Hw Hh]. unfold unitX. field. intros E. rewrite E in Hw. discriminate.
Qed.

Lemma unitY_scaled : positive_size R -> relY R P == unitY R P * height R.
Proof.
  intros [Hw Hh]. unfold unitY. field. intros E. rewrite E in Hh. discriminate.
Qed.

(** The unit coordinates of a pointer on an edge. *)
Lemma unitX_bounds :
  positive_size R ->
  (0 < relX R P -> 0 < unitX R P) /\ (relX R P < width R -> unitX R P < 1) /\
  (relX R P == 0 -> unitX R P == 0) /\ (relX R P == width R -> unitX R P == 1).
Proof.
  intros Hsize. pose proof Hsize as [Hw Hh].
  assert (~ width R == 0) as Hnz by (intros E; rewrite E in Hw; discriminate).
  repeat split; intros Hx.
  - rewrite <- (Qmult_lt_r _ _ (width R) Hw), <- unitX_scaled by assumption. lra.
  - rewrite <- (Qmult_lt_r _ _ (width R) Hw), <- unitX_scaled by assumption. lra.
  - unfold unitX. rewrite Hx. field. exact Hnz.
  - unfold unitX. rewrite Hx. field. exact Hnz.
Qed.

Lemma unitY_bounds :
  positive_size R ->
  (0 < relY R P -> 0 < unitY R P) /\ (relY R P < height R -> unitY R P < 1) /\
  (relY R P == 0 -> unitY R P == 0) /\ (relY R P == height R -> unitY R P == 1).
Proof.
  intros Hsize. pose proof Hsize as [Hw Hh].
  assert (~ height R == 0) as Hnz by (intros E; rewrite E in Hh; discriminate).
  repeat split; intros Hy.
  - rewrite <- (Qmult_lt_r _ _ (height R) Hh), <- unitY_scaled by assumption. lra.
  - rewrite <- (Qmult_lt_r _ _ (height R) Hh), <- unitY_scaled by assumption. lra.
  - unfold unitY. rewrite Hy. field. exact Hnz.
  - unfold unitY. rewrite Hy. field. exact Hnz.
Qed.

(** In exact arithmetic: a pointer on an edge of the rectangle, its two ends
    excluded, gets the outer direction of that edge. *)
Lemma edge_outer_direction (d : DropDirection) :
  positive_size R -> on_edge R P d ->
  determineDropDirection (Some R) (Some P) = Some (DropDirection_value (outer d)).
Proof.
  intros Hsize He. pose proof Hsize as [Hw Hh].
  destruct (unitX_bounds Hsize) as (X0 & X1 & Xz & Xw).
  destruct (unitY_bounds Hsize) as (Y0 & Y1 & Yz & Yh).
  assert (within R P /\ ~ in_center R P /\ in_outer_margin R P /\ in_quadrant R P d)
    as (Hin & Hc & Hmg & Hq).
  { unfold within, in_center, in_outer_margin.
    destruct d; cbn [on_edge in_quadrant] in *; try contradiction;
      destruct He as (E & L & U).
    all: first [ pose proof (X0 L); pose proof (X1 U)
               | pose proof (Y0 L); pose proof (Y1 U) ].
    all: first [ pose proof (Yz E) | pose proof (Yh E)
               | pose proof (Xz E) | pose proof (Xw E) ].
    all: repeat split; first [ lra | intros ?; lra ]. }
  apply (quadrant_direction R P Hsize d Hin Hc Hq). exact Hmg.
Qed.

(** In exact arithmetic: a direction comes out only for a rectangle of
    positive width and positive height. *)
Lemma direction_needs_positive_size (code : Z) :
  determineDropDirection (Some R) (Some P) = Some code -> positive_size R.
Proof.
  intros E.
  destruct outside_dec as [Hout | Hin].
  { rewrite (outside_undefined R P Hout) in E. discriminate E. }
  unfold positive_size.
  destruct (Qlt_le_dec 0 (width R)) as [Hw | Hw], (Qlt_le_dec 0 (height R)) as [Hh | Hh];
    [split; assumption | exfalso .. ].
  all: assert (~ in_center R P) as Hc by (unfold within, in_center in *; intros ?; lra).
  all: assert (diagonal1 R P == 0) as Hz;
    [| rewrite (zero_diagonal_undefined Hin Hc (or_introl Hz)) in E; discriminate E ].
  - assert (relY R P == 0) as Hy by (unfold within in Hin; lra).
    assert (height R == 0) as Hh0 by (unfold within in Hin; lra).
    unfold diagonal1. rewrite Hy, Hh0. ring.
  - assert (relX R P == 0) as Hx by (unfold within in Hin; lra).
    assert (width R == 0) as Hw0 by (unfold within in Hin; lra).
    unfold diagonal1. rewrite Hx, Hw0. ring.
  - assert (relX R P == 0) as Hx by (unfold within in Hin; lra).
    assert (width R == 0) as Hw0 by (unfold within in Hin; lra).
    unfold diagonal1. rewrite Hx, Hw0. ring.
Qed.

End MoreDropZones.

(** ** [determineDropDirection]: moving, scaling and mirroring *)

Lemma determineDropDirection_classify (R : Dimensions Q) (P : XYCoord Q) :
  determineDropDirection (Some R) (Some P)
  = classify (relX R P) (relY R P) (width R) (height R).
Proof. reflexivity. Qed.

(** A comparison is the same after both sides are multiplied by a positive
    number. *)
Lemma Qltb_scale (c a a' b b' : Q) :
  (0 < c)%Q -> (a' == c * a)%Q -> (b' == c * b)%Q -> Qltb a' b' = Qltb a b.
Proof.
  intros Hc Ha Hb.
  destruct (Qltb_reflect a b) as [L | L], (Qltb_reflect a' b') as [L' | L'];
    try reflexivity; exfalso.
  - apply L'. rewrite Ha, Hb, !(Qmult_comm c). apply Qmult_lt_r; assumption.
  - apply L. rewrite Ha, Hb, !(Qmult_comm c) in L'.
    apply (Qmult_lt_r _ _ c Hc). exact L'.
Qed.

Lemma Qeq_bool_scale (c a a' : Q) :
  (0 < c)%Q -> (a' == c * a)%Q -> Qeq_bool a' 0 = Qeq_bool a 0.
Proof.
  intros Hc Ha.
  assert (~ c == 0)%Q as Hnz by (intros E; rewrite E in Hc; discriminate).
  destruct (Qeq_bool_reflect a 0) as [Z | Z], (Qeq_bool_reflect a' 0) as [Z' | Z'];
    try reflexivity; exfalso.
  - apply Z'. rewrite Ha, Z. ring.
  - apply Z. rewrite Ha in Z'.
    destruct (Qmult_integral _ _ Z') as [E | E]; [contradiction | exact E].
Qed.

Section Classify.
Local Open Scope Q_scope.
Variables X Y W H : Q.

Lemma classify_compat (X' Y' W' H' : Q) :
  X' == X -> Y' == Y -> W' == W -> H' == H ->
  classify X' Y' W' H' = classify X Y W H.
Proof.
  intros HX HY HW HH. unfold classify.
  repeat match goal with
         | |- context [Qltb ?a ?b] =>
           lazymatch a with
           | context [X'] => idtac | context [Y'] => idtac
           | context [W'] => idtac | context [H'] => idtac
           | _ => lazymatch b with
                  | context [X'] => idtac | context [Y'] => idtac
                  | context [W'] => idtac | context [H'] => idtac
                  end
           end;
           let a0 := eval pattern X', Y', W', H' in a in
           let b0 := eval pattern X', Y', W', H' in b in
           lazymatch a0 with ?fa _ _ _ _ =>
           lazymatch b0 with ?fb _ _ _ _ =>
             rewrite (Qltb_compat a (fa X Y W H) b (fb X Y W H))
               by (cbv beta; rewrite ?HX, ?HY, ?HW, ?HH; reflexivity)
           end end
         | |- context [Qeq_bool ?a ?b] =>
           lazymatch a with
           | context [X'] => idtac | context [Y'] => idtac
           | context [W'] => idtac | context [H'] => idtac
           end;
           let a0 := eval pattern X', Y', W', H' in a in
           lazymatch a0 with ?fa _ _ _ _ =>
             rewrite (Qeq_bool_compat a (fa X Y W H) b b)
               by (cbv beta; rewrite ?HX, ?HY, ?HW, ?HH; reflexivity)
           end
         end.
  reflexivity.
Qed.

Lemma classify_scale (k : Q) :
  0 < k -> classify (k * X) (k * Y) (k * W) (k * H) = classify X Y W H.
Proof.
  intros Hk.
  assert (0 < k * k) as Hkk by (apply Qmult_lt_0_compat; assumption).
  unfold classify.
  rewrite (Qltb_scale k Y (k * Y) 0 0),
          (Qltb_scale k H (k * H) Y (k * Y)),
          (Qltb_scale k X (k * X) 0 0),
          (Qltb_scale k W (k * W) X (k * X)),
          (Qltb_scale k (2 * W * (1 # 5)) (2 * (k * W) * (1 # 5)) X (k * X)),
          (Qltb_scale k X (k * X) (3 * W * (1 # 5)) (3 * (k * W) * (1 # 5))),
          (Qltb_scale k (2 * H * (1 # 5)) (2 * (k * H) * (1 # 5)) Y (k * Y)),
          (Qltb_scale k Y (k * Y) (3 * H * (1 # 5)) (3 * (k * H) * (1 # 5))),
          (Qeq_bool_scale (k * k) (Y * W - X * H) (k * Y * (k * W) - k * X * (k * H))),
          (Qeq_bool_scale (k * k) (Y * W + X * H - H * W)
             (k * Y * (k * W) + k * X * (k * H) - k * H * (k * W))),
          (Qltb_scale (k * k) 0 0 (Y * W - X * H) (k * Y * (k * W) - k * X * (k * H))),
          !(Qltb_scale (k * k) 0 0 (Y * W + X * H - H * W)
             (k * Y * (k * W) + k * X * (k * H) - k * H * (k * W))),
          (Qltb_scale k Y (k * Y) (H * (1 # 5)) (k * H * (1 # 5))),
          (Qltb_scale k (H - H * (1 # 5)) (k * H - k * H * (1 # 5)) Y (k * Y)),
          (Qltb_scale k X (k * X) (W * (1 # 5)) (k * W * (1 # 5))),
          (Qltb_scale k (W - W * (1 # 5)) (k * W - k * W * (1 # 5)) X (k * X))
    by (try assumption; ring).
  reflexivity.
Qed.

End Classify.

Section Images.
Local Open Scope Q_scope.
Variables (R : Dimensions Q) (P : XYCoord Q).

(** In exact arithmetic: moving the rectangle and the pointer by the same
    vector keeps the result. *)
Lemma determineDropDirection_moved (dx dy : Q) :
  determineDropDirection (Some (move_rectangle R dx dy)) (Some (move_pointer P dx dy))
  = determineDropDirection (Some R) (Some P).
Proof.
  rewrite !determineDropDirection_classify.
  apply classify_compat; unfold relX, relY; cbn; try reflexivity; ring.
Qed.

(** In exact arithmetic: multiplying the rectangle and the pointer by the
    same positive number keeps the result. *)
Lemma determineDropDirection_scaled (k : Q) :
  0 < k ->
  determineDropDirection (Some (scale_rectangle R k)) (Some (scale_pointer P k))
  = determineDropDirection (Some R) (Some P).
Proof.
  intros Hk. rewrite !determineDropDirection_classify.
  rewrite <- (classify_scale (relX R P) (relY R P) (width R) (height R) k Hk).
  apply classify_compat; unfold relX, relY; cbn; try reflexivity; ring.
Qed.

End Images.

(** An image of the pointer that keeps the centre region and the outer
    fifths, and sends each triangle to a triangle. *)
Section Symmetry.
Local Open Scope Q_scope.
Variables (R : Dimensions Q) (image : XYCoord Q -> XYCoord Q).
Variable swap : DropDirection -> DropDirection.
Hypothesis Hsize : positive_size R.
Hypothesis image_within : forall P, within R P -> within R (image P).
Hypothesis image_center : forall P, in_center R P <-> in_center R (image P).
Hypothesis image_margin : forall P, in_outer_margin R P <-> in_outer_margin R (image P).
Hypothesis image_quadrant :
  forall P d, in_quadrant R P d -> in_quadrant R (image P) (swap d).
Hypothesis swap_outer : forall d, swap (outer d) = outer (swap d).
Hypothesis swap_Center : swap Center = Center.

Lemma image_direction (P : XYCoord Q) :
  strictly_inside R P -> ~ on_main_diagonal R P -> ~ on_anti_diagonal R P ->
  exists d,
    determineDropDirection (Some R) (Some P) = Some (DropDirection_value d) /\
    determineDropDirection (Some R) (Some (image P)) = Some (DropDirection_value (swap d)).
Proof.
  intros Hin Hm Ha. apply strictly_inside_within in Hin.
  destruct (in_center_dec R P) as [Hc | Hc].
  - exists Center. rewrite swap_Center. split; apply center_Center; try assumption.
    apply (proj1 (image_center P)); assumption.
  - destruct (quadrant_exists R P Hm Ha) as (d & Hq & _).
    assert (~ in_center R (image P)) as Hc'
        by (intros C; apply Hc, (proj2 (image_center P)); exact C).
    destruct (quadrant_direction R P Hsize d Hin Hc Hq) as [Hout Hinn].
    destruct (quadrant_direction R (image P) Hsize (swap d)
                (image_within P Hin) Hc' (image_quadrant P d Hq)) as [Hout' Hinn'].
    destruct (in_outer_margin_dec R P) as [Hmg | Hmg].
    + exists (outer d). rewrite swap_outer. split; [auto |].
      apply Hout', (proj1 (image_margin P)); assumption.
    + exists d. split; [auto |].
      apply Hinn'. intros M. apply Hmg, (proj2 (image_margin P)); exact M.
Qed.

End Symmetry.

Section Mirrors.
Local Open Scope Q_scope.
Variables (R : Dimensions Q) (P : XYCoord Q).
Hypothesis Hsize : positive_size R.

Lemma relX_mirror_horizontally (P0 : XYCoord Q) :
  relX R (mirror_horizontally R P0) == width R - relX R P0.
Proof. unfold relX, mirror_horizontally; cbn [x]. ring. Qed.

Lemma relY_mirror_vertically (P0 : XYCoord Q) :
  relY R (mirror_vertically R P0) == height R - relY R P0.
Proof. unfold relY, mirror_vertically; cbn [y]. ring. Qed.

Lemma unitX_mirror_horizontally (P0 : XYCoord Q) :
  unitX R (mirror_horizontally R P0) == 1 - unitX R P0.
Proof.
  destruct Hsize as [Hw Hh]. unfold unitX. rewrite relX_mirror_horizontally. field.
  intros E. rewrite E in Hw. discriminate.
Qed.

Lemma unitY_mirror_vertically (P0 : XYCoord Q) :
  unitY R (mirror_vertically R P0) == 1 - unitY R P0.
Proof.
  destruct Hsize as [Hw Hh]. unfold unitY. rewrite relY_mirror_vertically. field.
  intros E. rewrite E in Hh. discriminate.
Qed.

(** In exact arithmetic: mirroring the pointer in the vertical axis through
    the centre of the rectangle exchanges Left with Right, and OuterLeft
    with OuterRight, and keeps every other direction. *)
Lemma mirror_horizontally_flips :
  strictly_inside R P -> ~ on_main_diagonal R P -> ~ on_anti_diagonal R P ->
  exists d,
    determineDropDirection (Some R) (Some P) = Some (DropDirection_value d) /\
    determineDropDirection (Some R) (Some (mirror_horizontally R P))
    = Some (DropDirection_value (flip_horizontally d)).
Proof.
  apply (image_direction R (mirror_horizontally R) flip_horizontally Hsize).
  - intros P0. pose proof (relX_mirror_horizontally P0).
    unfold within. change (relY R (mirror_horizontally R P0)) with (relY R P0). lra.
  - intros P0. pose proof (relX_mirror_horizontally P0).
    unfold in_center. change (relY R (mirror_horizontally R P0)) with (relY R P0).
    split; intros; lra.
  - intros P0. pose proof (relX_mirror_horizontally P0).
    unfold in_outer_margin. change (relY R (mirror_horizontally R P0)) with (relY R P0).
    split; intros; lra.
  - intros P0 d. pose proof (unitX_mirror_horizontally P0).
    destruct d; cbn [in_quadrant flip_horizontally]; try contradiction;
      change (unitY R (mirror_horizontally R P0)) with (unitY R P0); lra.
  - intros d; destruct d; reflexivity.
  - reflexivity.
Qed.

(** In exact arithmetic: mirroring the pointer in the horizontal axis
    through the centre of the rectangle exchanges Top with Bottom, and
    OuterTop with OuterBottom, and keeps every other direction. *)
Lemma mirror_vertically_flips :
  strictly_inside R P -> ~ on_main_diagonal R P -> ~ on_anti_diagonal R P ->
  exists d,
    determineDropDirection (Some R) (Some P) = Some (DropDirection_value d) /\
    determineDropDirection (Some R) (Some (mirror_vertically R P))
    = Some (DropDirection_value (flip_vertically d)).
Proof.
  apply (image_direction R (mirror_vertically R) flip_vertically Hsize).
  - intros P0. pose proof (relY_mirror_vertically P0).
    unfold within. change (relX R (mirror_vertically R P0)) with (relX R P0). lra.
  - intros P0. pose proof (relY_mirror_vertically P0).
    unfold in_center. change (relX R (mirror_vertically R P0)) with (relX R P0).
    split; intros; lra.
  - intros P0. pose proof (relY_mirror_vertically P0).
    unfold in_outer_margin. change (relX R (mirror_vertically R P0)) with (relX R P0).
    split; intros; lra.
  - intros P0 d. pose proof (unitY_mirror_vertically P0).
    destruct d; cbn [in_quadrant flip_vertically]; try contradiction;
      change (unitX R (mirror_vertically R P0)) with (unitX R P0); lra.
  - intros d; destruct d; reflexivity.
  - reflexivity.
Qed.

End Mirrors.

Lemma determineDropDirection_range_witness :
  determineDropDirection (Some square) (Some (pointer 50 5)) = Some 4%Z /\
  exists d, 4%Z = DropDirection_value d.
Proof.
  assert (determineDropDirection (Some square) (Some (pointer 50 5)) = Some 4%Z) as E
      by (vm_compute; reflexivity).
  split; [exact E |].
  exact (determineDropDirection_range (Some square) (Some (pointer 50 5)) 4%Z E).
Defined.

(** * The program's arithmetic: binary64 *)


(** ** Binary64 comparisons are exact *)

Lemma two_power_pos (e : Z) : (0 < 2 ^ e)%Q.
Proof. apply Qpower_0_lt. reflexivity. Qed.

Lemma digits2_pos_size (m : positive) : digits2_pos m = Pos.size m.
Proof. induction m as [m IH | m IH |]; cbn; rewrite ?IH; reflexivity. Qed.

Lemma digits_bounds (m : positive) :
  (Zpos m < 2 ^ Zpos (digits2_pos m) <= 2 * Zpos m)%Z.
Proof.
  rewrite digits2_pos_size.
  pose proof (Pos.size_gt m) as Hgt. pose proof (Pos.size_le m) as Hle.
  rewrite <- Pos2Z.inj_pow. split.
  - apply Pos2Z.pos_lt_pos. exact Hgt.
  - change (2 * Zpos m)%Z with (Zpos m~0). apply Pos2Z.pos_le_pos. exact Hle.
Qed.

(** A mantissa has at most 53 digits, and exactly 53 above the least
    exponent. *)
Lemma bounded_digits (m : positive) (e : Z) :
  bounded prec emax m e = true ->
  (Zpos (digits2_pos m) <= 53 /\ -1074 <= e /\
   (-1074 < e -> Zpos (digits2_pos m) = 53))%Z.
Proof.
  unfold bounded, canonical_mantissa, fexp, SpecFloat.emin, prec, emax.
  intros H. apply andb_prop in H as [H _]. apply Z.eqb_eq in H. lia.
Qed.

Lemma canonical_lt (m1 m2 : positive) (e1 e2 : Z) :
  bounded prec emax m1 e1 = true -> bounded prec emax m2 e2 = true ->
  (e1 < e2)%Z ->
  (inject_Z (Zpos m1) * 2 ^ e1 < inject_Z (Zpos m2) * 2 ^ e2)%Q.
Proof.
  intros B1 B2 He.
  apply bounded_digits in B1 as (D1 & E1 & _).
  apply bounded_digits in B2 as (_ & _ & D2).
  specialize (D2 ltac:(lia)).
  pose proof (digits_bounds m1) as [L1 _]. pose proof (digits_bounds m2) as [_ U2].
  rewrite D2 in U2.
  assert (Zpos m1 < 2 ^ 53)%Z as Hm1.
  { eapply Z.lt_le_trans; [exact L1 |]. apply Z.pow_le_mono_r; lia. }
  replace e2 with (e1 + (e2 - e1))%Z by lia.
  rewrite Qpower_plus by discriminate.
  rewrite <- (Zpower_Qpower 2 (e2 - e1)) by lia.
  rewrite (Qmult_comm (2 ^ e1)), Qmult_assoc, <- inject_Z_mult.
  apply Qmult_lt_r; [apply two_power_pos |].
  rewrite <- Zlt_Qlt.
  assert (2 ^ 1 <= 2 ^ (e2 - e1))%Z by (apply Z.pow_le_mono_r; lia).
  nia.
Qed.

Lemma finite_pos (m : positive) (e : Z) : (0 < inject_Z (Zpos m) * 2 ^ e)%Q.
Proof. apply Qmult_lt_0_compat; [reflexivity | apply two_power_pos]. Qed.

Lemma finite_neg (m : positive) (e : Z) :
  (inject_Z (Zneg m) * 2 ^ e == - (inject_Z (Zpos m) * 2 ^ e))%Q.
Proof. change (Zneg m) with (- Zpos m)%Z. rewrite inject_Z_opp. ring. Qed.

Lemma finite_same_exponent (m1 m2 : positive) (e : Z) :
  (inject_Z (Zpos m1) * 2 ^ e ?= inject_Z (Zpos m2) * 2 ^ e)%Q = (m1 ?= m2)%positive.
Proof.
  pose proof (two_power_pos e) as Hp.
  destruct (Pos.compare_spec m1 m2) as [E | L | G].
  - subst. apply (proj1 (Qeq_alt _ _)). reflexivity.
  - apply (proj1 (Qlt_alt _ _)). apply Qmult_lt_r; [exact Hp |].
    rewrite <- Zlt_Qlt. apply Pos2Z.pos_lt_pos. exact L.
  - apply (proj1 (Qgt_alt _ _)). apply Qmult_lt_r; [exact Hp |].
    rewrite <- Zlt_Qlt. apply Pos2Z.pos_lt_pos. exact G.
Qed.

Lemma Qcompare_opp (a b : Q) : (- a ?= - b)%Q = CompOpp (a ?= b)%Q.
Proof.
  destruct (a ?= b)%Q eqn:E; cbn [CompOpp].
  - apply (proj2 (Qeq_alt _ _)) in E. apply (proj1 (Qeq_alt _ _)). rewrite E. reflexivity.
  - apply (proj2 (Qlt_alt _ _)) in E. apply (proj1 (Qgt_alt _ _)). lra.
  - apply (proj2 (Qgt_alt _ _)) in E. apply (proj1 (Qlt_alt _ _)). lra.
Qed.

(** The comparison of two finite numbers of the format is the comparison of
    their exact values. *)
Lemma SFcompare_exact (f1 f2 : spec_float) (q1 q2 : Q) :
  valid_binary f1 = true -> valid_binary f2 = true ->
  SF2Q f1 = Some q1 -> SF2Q f2 = Some q2 ->
  SFcompare f1 f2 = Some (q1 ?= q2)%Q.
Proof.
  intros V1 V2 E1 E2.
  destruct f1 as [s1 | s1 | | s1 m1 e1], f2 as [s2 | s2 | | s2 m2 e2];
    cbn in E1, E2; try discriminate;
    injection E1 as <-; injection E2 as <-; cbn [SFcompare]; f_equal; symmetry.
  - pose proof (finite_pos m2 e2). pose proof (finite_neg m2 e2).
    destruct s2; cbn [signed];
      [apply (proj1 (Qgt_alt _ _)) | apply (proj1 (Qlt_alt _ _))]; lra.
  - pose proof (finite_pos m1 e1). pose proof (finite_neg m1 e1).
    destruct s1; cbn [signed];
      [apply (proj1 (Qlt_alt _ _)) | apply (proj1 (Qgt_alt _ _))]; lra.
  - cbn in V1, V2.
    pose proof (finite_pos m1 e1) as P1. pose proof (finite_neg m1 e1) as N1.
    pose proof (finite_pos m2 e2) as P2. pose proof (finite_neg m2 e2) as N2.
    destruct s1, s2; cbn [signed].
    + rewrite N1, N2, Qcompare_opp.
      destruct (Z.compare_spec e1 e2) as [E | L | G]; cbn [CompOpp].
      * subst. rewrite finite_same_exponent. reflexivity.
      * pose proof (canonical_lt m1 m2 e1 e2 V1 V2 L) as C.
        apply (proj1 (Qlt_alt _ _)) in C. rewrite C. reflexivity.
      * pose proof (canonical_lt m2 m1 e2 e1 V2 V1 G) as C.
        apply (proj1 (Qgt_alt _ _)) in C. rewrite C. reflexivity.
    + apply (proj1 (Qlt_alt _ _)). lra.
    + apply (proj1 (Qgt_alt _ _)). lra.
    + destruct (Z.compare_spec e1 e2) as [E | L | G].
      * subst. rewrite finite_same_exponent. reflexivity.
      * apply (proj1 (Qlt_alt _ _)). apply canonical_lt; assumption.
      * apply (proj1 (Qgt_alt _ _)). apply canonical_lt; assumption.
Qed.

Lemma denotes_value (f : float) (q : Q) :
  denotes f q -> exists q', value f = Some q' /\ (q' == q)%Q.
Proof.
  unfold denotes. destruct (value f) as [q' |]; [| contradiction].
  intros E. exists q'. split; [reflexivity | exact E].
Qed.

(** [<], [>], [==] and [<=] of two finite binary64 numbers are those of
    their exact values. *)
Lemma ltb_denotes (a b : float) (qa qb : Q) :
  denotes a qa -> denotes b qb -> PrimFloat.ltb a b = Qltb qa qb.
Proof.
  intros Ha Hb.
  apply denotes_value in Ha as (qa' & Ha & Ea). apply denotes_value in Hb as (qb' & Hb & Eb).
  rewrite FloatAxioms.ltb_spec. unfold SFltb.
  rewrite (SFcompare_exact _ _ qa' qb' (Prim2SF_valid a) (Prim2SF_valid b) Ha Hb).
  rewrite <- (Qltb_compat qa' qa qb' qb Ea Eb). reflexivity.
Qed.

Lemma eqb_denotes (a b : float) (qa qb : Q) :
  denotes a qa -> denotes b qb -> PrimFloat.eqb a b = Qeq_bool qa qb.
Proof.
  intros Ha Hb.
  apply denotes_value in Ha as (qa' & Ha & Ea). apply denotes_value in Hb as (qb' & Hb & Eb).
  rewrite FloatAxioms.eqb_spec. unfold SFeqb.
  rewrite (SFcompare_exact _ _ qa' qb' (Prim2SF_valid a) (Prim2SF_valid b) Ha Hb).
  rewrite <- (Qeq_bool_compat qa' qa qb' qb Ea Eb).
  destruct (qa' ?= qb')%Q eqn:E; symmetry.
  - apply Qeq_bool_iff. apply (proj2 (Qeq_alt _ _)). exact E.
  - apply not_true_iff_false. intros C. apply Qeq_bool_iff in C.
    apply (proj1 (Qeq_alt _ _)) in C. congruence.
  - apply not_true_iff_false. intros C. apply Qeq_bool_iff in C.
    apply (proj1 (Qeq_alt _ _)) in C. congruence.
Qed.

Lemma leb_denotes (a b : float) (qa qb : Q) :
  denotes a qa -> denotes b qb -> PrimFloat.leb a b = Qle_bool qa qb.
Proof.
  intros Ha Hb.
  apply denotes_value in Ha as (qa' & Ha & Ea). apply denotes_value in Hb as (qb' & Hb & Eb).
  rewrite FloatAxioms.leb_spec. unfold SFleb.
  rewrite (SFcompare_exact _ _ qa' qb' (Prim2SF_valid a) (Prim2SF_valid b) Ha Hb).
  destruct (qa' ?= qb')%Q eqn:E; symmetry.
  - apply Qle_bool_iff. apply (proj2 (Qeq_alt _ _)) in E. lra.
  - apply Qle_bool_iff. apply (proj2 (Qlt_alt _ _)) in E. lra.
  - apply not_true_iff_false. intros C. apply Qle_bool_iff in C.
    apply (proj2 (Qgt_alt _ _)) in E. lra.
Qed.

(** ** [determineDropDirection] by its tests, in any arithmetic *)

Section ByTests.
Context {N : Type} `{JSNumber N}.
Variables (R : Dimensions N) (P : XYCoord N).

Lemma determineDropDirection_by_tests :
  determineDropDirection (Some R) (Some P) =
  if outside_test R P then None else
  if center_test R P then Some (DropDirection_value Center) else
  if diagonal_test R P then None else
  Some (if margin_test R P then (quadrant_test R P + 4)%Z else quadrant_test R P).
Proof. reflexivity. Qed.

Lemma quadrant_test_range : (0 <= quadrant_test R P <= 3)%Z.
Proof.
  unfold quadrant_test. cbv zeta.
  repeat match goal with
         | |- context [if ?c then _ else _] => destruct c
         end; lia.
Qed.

Lemma undefined_by_tests :
  determineDropDirection (Some R) (Some P) = None <->
  outside_test R P = true \/ (center_test R P = false /\ diagonal_test R P = true).
Proof.
  rewrite determineDropDirection_by_tests.
  destruct (outside_test R P), (center_test R P), (diagonal_test R P);
    intuition congruence.
Qed.

Lemma Center_by_tests :
  determineDropDirection (Some R) (Some P) = Some (DropDirection_value Center) <->
  outside_test R P = false /\ center_test R P = true.
Proof.
  rewrite determineDropDirection_by_tests.
  pose proof quadrant_test_range as Hq.
  destruct (outside_test R P), (center_test R P), (diagonal_test R P), (margin_test R P);
    split; intros E; try discriminate E; auto;
    try (destruct E; discriminate);
    injection E as E; cbn in E; lia.
Qed.


End ByTests.

(** ** The tests in binary64 and in exact arithmetic *)

Section ComparisonsOfTheProgram.
Local Open Scope js_scope.

Lemma ltb_js (a b : float) (qa qb : Q) :
  denotes a qa -> denotes b qb -> (a <? b) = Qltb qa qb.
Proof. apply ltb_denotes. Qed.

Lemma gtb_js (a b : float) (qa qb : Q) :
  denotes a qa -> denotes b qb -> (a >? b) = Qltb qb qa.
Proof. intros Ha Hb. apply (ltb_denotes b a qb qa Hb Ha). Qed.

Lemma eqb_js (a b : float) (qa qb : Q) :
  denotes a qa -> denotes b qb -> (a ==? b) = Qeq_bool qa qb.
Proof. apply eqb_denotes. Qed.

Lemma denotes_lit_0 : denotes (lit 0) 0%Q.
Proof. vm_compute. reflexivity. Qed.

End ComparisonsOfTheProgram.

Section TestsExact.
Variables (R : Dimensions float) (P : XYCoord float).
Variables (RQ : Dimensions Q) (PQ : XYCoord Q).
Hypothesis HR : denotes_rectangle R RQ.
Hypothesis Hoffset : exact_offset R P RQ PQ.

Lemma outside_test_exact : outside_test R P = outside_test RQ PQ.
Proof.
  destruct HR as (Hw & Hh & _ & _), Hoffset as (Hx & Hy).
  pose proof denotes_lit_0 as H0.
  unfold outside_test at 1. cbv zeta.
  rewrite (ltb_js _ _ _ _ Hy H0), (gtb_js _ _ _ _ Hy Hh),
          (ltb_js _ _ _ _ Hx H0), (gtb_js _ _ _ _ Hx Hw).
  reflexivity.
Qed.

Lemma center_test_exact :
  exact_center_bounds R RQ -> center_test R P = center_test RQ PQ.
Proof.
  intros (X1 & X2 & Y1 & Y2). destruct Hoffset as (Hx & Hy).
  unfold center_test at 1. cbv zeta.
  rewrite (gtb_js _ _ _ _ Hx X1), (ltb_js _ _ _ _ Hx X2),
          (gtb_js _ _ _ _ Hy Y1), (ltb_js _ _ _ _ Hy Y2).
  reflexivity.
Qed.

Lemma diagonal_test_exact :
  exact_diagonals R P RQ PQ -> diagonal_test R P = diagonal_test RQ PQ.
Proof.
  intros (D1 & D2). pose proof denotes_lit_0 as H0.
  unfold diagonal_test at 1. cbv zeta.
  rewrite (eqb_js _ _ _ _ D1 H0), (eqb_js _ _ _ _ D2 H0).
  reflexivity.
Qed.

Lemma quadrant_test_exact :
  exact_diagonals R P RQ PQ -> quadrant_test R P = quadrant_test RQ PQ.
Proof.
  intros (D1 & D2). pose proof denotes_lit_0 as H0.
  unfold quadrant_test at 1. cbv zeta.
  rewrite (gtb_js _ _ _ _ D1 H0), (gtb_js _ _ _ _ D2 H0).
  reflexivity.
Qed.

Lemma margin_test_exact :
  exact_margin_bounds R RQ -> margin_test R P = margin_test RQ PQ.
Proof.
  intros (X1 & X2 & Y1 & Y2). destruct Hoffset as (Hx & Hy).
  unfold margin_test at 1. cbv zeta.
  rewrite (ltb_js _ _ _ _ Hy Y1), (gtb_js _ _ _ _ Hy Y2),
          (ltb_js _ _ _ _ Hx X1), (gtb_js _ _ _ _ Hx X2).
  reflexivity.
Qed.

End TestsExact.

(** A run without rounding gives what exact arithmetic gives. *)
Lemma exact_run_result (R : Dimensions float) (P : XYCoord float)
    (RQ : Dimensions Q) (PQ : XYCoord Q) :
  exact_run R P RQ PQ ->
  determineDropDirection (Some R) (Some P) = determineDropDirection (Some RQ) (Some PQ).
Proof.
  intros ((HR & _ & Ho) & Hc & Hd & Hm).
  rewrite !determineDropDirection_by_tests.
  rewrite (outside_test_exact R P RQ PQ HR Ho), (center_test_exact R P RQ PQ Ho Hc),
          (diagonal_test_exact R P RQ PQ Hd), (quadrant_test_exact R P RQ PQ Hd),
          (margin_test_exact R P RQ PQ Ho Hm).
  reflexivity.
Qed.

(** ** The drop zones in binary64 *)

Lemma outside_test_true (RQ : Dimensions Q) (PQ : XYCoord Q) :
  outside RQ PQ -> outside_test RQ PQ = true.
Proof.
  unfold outside, outside_test, relX, relY.
  cbn [ltb gtb sub lit Q_number]. change (inject_Z 0) with 0%Q.
  intros Hout.
  repeat match goal with
         | |- context [Qltb ?a ?b] => destruct (Qltb_reflect a b)
         end; cbn [orb]; try reflexivity; exfalso; lra.
Qed.

(** Closes a statement about binary64 constants and their exact values. *)
Ltac by_evaluation :=
  vm_compute; repeat split;
  first [ reflexivity | discriminate
        | let E := fresh in intros E; discriminate E ].

Section Binary64.
Variables (R : Dimensions float) (P : XYCoord float).
Variables (RQ : Dimensions Q) (PQ : XYCoord Q).

(** With exact offsets and exact bounds of the centre, binary64 and exact
    arithmetic agree on Center. *)
Lemma Center_agrees :
  exact_box R P RQ PQ -> exact_center_bounds R RQ ->
  (determineDropDirection (Some R) (Some P) = Some (DropDirection_value Center) <->
   determineDropDirection (Some RQ) (Some PQ) = Some (DropDirection_value Center)).
Proof.
  intros (HR & _ & Ho) Hc. rewrite !Center_by_tests.
  rewrite (outside_test_exact R P RQ PQ HR Ho), (center_test_exact R P RQ PQ Ho Hc).
  reflexivity.
Qed.

(** With exact diagonals as well, they agree on [undefined]. *)
Lemma undefined_agrees :
  exact_box R P RQ PQ -> exact_center_bounds R RQ -> exact_diagonals R P RQ PQ ->
  (determineDropDirection (Some R) (Some P) = None <->
   determineDropDirection (Some RQ) (Some PQ) = None).
Proof.
  intros (HR & _ & Ho) Hc Hd. rewrite !undefined_by_tests.
  rewrite (outside_test_exact R P RQ PQ HR Ho), (center_test_exact R P RQ PQ Ho Hc),
          (diagonal_test_exact R P RQ PQ Hd).
  reflexivity.
Qed.


(** C2, as amended. For a binary64 rectangle and pointer whose offsets,
    centre bounds and diagonal expressions the function computes without
    rounding: when the rectangle has positive width and height and the
    pointer lies within it on one of its two diagonals, the result is
    [undefined] outside the centre region and Center inside it. *)
Theorem binary64_diagonal_undefined_or_Center :
  exact_box R P RQ PQ -> exact_center_bounds R RQ -> exact_diagonals R P RQ PQ ->
  positive_size RQ -> within RQ PQ -> on_diagonal RQ PQ ->
  (~ in_center RQ PQ -> determineDropDirection (Some R) (Some P) = None) /\
  (in_center RQ PQ ->
   determineDropDirection (Some R) (Some P) = Some (DropDirection_value Center)).
Proof.
  intros Hb Hc Hd Hsize Hin Hdiag. split; intros Hcen.
  - apply (undefined_agrees Hb Hc Hd). apply diagonal_undefined; assumption.
  - apply (Center_agrees Hb Hc). apply center_Center; assumption.
Qed.

Lemma exact_outer_margin_outer_variant :
  exact_run R P RQ PQ ->
  positive_size RQ -> strictly_inside RQ PQ ->
  ~ on_main_diagonal RQ PQ -> ~ on_anti_diagonal RQ PQ ->
  ~ in_center RQ PQ -> in_outer_margin RQ PQ ->
  exists d, in_quadrant RQ PQ d /\
    determineDropDirection (Some R) (Some P) = Some (DropDirection_value (outer d)).
Proof.
  intros Hrun. rewrite (exact_run_result R P RQ PQ Hrun).
  apply outer_margin_outer_variant.
Qed.

Lemma exact_Center_iff_in_center :
  exact_box R P RQ PQ -> exact_center_bounds R RQ ->
  positive_size RQ -> within RQ PQ ->
  (determineDropDirection (Some R) (Some P) = Some (DropDirection_value Center)
   <-> in_center RQ PQ).
Proof.
  intros Hb Hc Hsize Hin.
  rewrite (Center_agrees Hb Hc). apply Center_iff_in_center; assumption.
Qed.

(** C5, as amended. For a binary64 rectangle, a pointer and the pointer
    after half a turn about the centre of the rectangle, on both of which
    the function runs without rounding: when the rectangle has positive
    width and height and the pointer is strictly inside it and on neither
    diagonal, the half turn exchanges Top with Bottom and Left with Right,
    likewise their outer variants, and keeps Center. *)
Theorem binary64_half_turn_opposite_direction (P' : XYCoord float) :
  exact_run R P RQ PQ -> exact_run R P' RQ (rotate180 RQ PQ) ->
  positive_size RQ -> strictly_inside RQ PQ ->
  ~ on_main_diagonal RQ PQ -> ~ on_anti_diagonal RQ PQ ->
  exists d,
    determineDropDirection (Some R) (Some P) = Some (DropDirection_value d) /\
    determineDropDirection (Some R) (Some P') = Some (DropDirection_value (opposite d)).
Proof.
  intros Hrun Hrun'.
  rewrite (exact_run_result R P RQ PQ Hrun),
          (exact_run_result R P' RQ (rotate180 RQ PQ) Hrun').
  apply half_turn_opposite_direction.
Qed.

Lemma exact_outside_undefined :
  exact_box R P RQ PQ -> outside RQ PQ ->
  determineDropDirection (Some R) (Some P) = None.
Proof.
  intros (HR & _ & Ho) Hout. apply undefined_by_tests. left.
  rewrite (outside_test_exact R P RQ PQ HR Ho).
  apply outside_test_true. exact Hout.
Qed.

End Binary64.

(** C3, as amended. For a binary64 rectangle and pointer on which the
    function runs without rounding: when the rectangle has positive width
    and height and the pointer is strictly inside it, on neither diagonal,
    outside the centre region and in the outer fifth along either axis, the
    result is the outer variant of the triangle the pointer is in. On the
    rectangle of 100 by 100 at the origin, the pointer at (5, 50) gives
    OuterLeft and the pointer at (50, 5) gives OuterTop. *)
Theorem binary64_outer_margin_outer_variant :
  (forall (R : Dimensions float) (P : XYCoord float) (RQ : Dimensions Q) (PQ : XYCoord Q),
      exact_run R P RQ PQ ->
      positive_size RQ -> strictly_inside RQ PQ ->
      ~ on_main_diagonal RQ PQ -> ~ on_anti_diagonal RQ PQ ->
      ~ in_center RQ PQ -> in_outer_margin RQ PQ ->
      exists d, in_quadrant RQ PQ d /\
        determineDropDirection (Some R) (Some P) = Some (DropDirection_value (outer d))) /\
  determineDropDirection (Some square64) (Some (pointer64 5 50))
  = Some (DropDirection_value OuterLeft) /\
  determineDropDirection (Some square64) (Some (pointer64 50 5))
  = Some (DropDirection_value OuterTop).
Proof.
  split; [exact exact_outer_margin_outer_variant | by_evaluation].
Qed.

(** C4, as amended. For a binary64 rectangle and pointer whose offsets and
    centre bounds the function computes without rounding: when the
    rectangle has positive width and height and the pointer is within it,
    the result is Center exactly when the pointer, relative to the origin of
    the rectangle, is strictly between 2/5 and 3/5 of the width and strictly
    between 2/5 and 3/5 of the height. On the rectangle of 100 by 100 at the
    origin, the pointer at (50, 50) gives Center. *)
Theorem binary64_Center_iff_in_center :
  (forall (R : Dimensions float) (P : XYCoord float) (RQ : Dimensions Q) (PQ : XYCoord Q),
      exact_box R P RQ PQ -> exact_center_bounds R RQ ->
      positive_size RQ -> within RQ PQ ->
      (determineDropDirection (Some R) (Some P) = Some (DropDirection_value Center)
       <-> in_center RQ PQ)) /\
  determineDropDirection (Some square64) (Some (pointer64 50 50))
  = Some (DropDirection_value Center).
Proof.
  split; [exact exact_Center_iff_in_center | by_evaluation].
Qed.

(** C6, as amended. For a binary64 rectangle and pointer whose offsets the
    function computes without rounding: when the rectangle has positive
    width and height and the pointer is outside it, the result is
    [undefined]. On the rectangle of 100 by 100 at the origin, the pointer at
    (150, 50) gives [undefined]. *)
Theorem binary64_outside_undefined :
  (forall (R : Dimensions float) (P : XYCoord float) (RQ : Dimensions Q) (PQ : XYCoord Q),
      exact_box R P RQ PQ -> positive_size RQ -> outside RQ PQ ->
      determineDropDirection (Some R) (Some P) = None) /\
  determineDropDirection (Some square64) (Some (pointer64 150 50)) = None.
Proof.
  split; [| by_evaluation].
  intros R P RQ PQ Hb _ Hout. exact (exact_outside_undefined R P RQ PQ Hb Hout).
Qed.

(** ** Runs with and without rounding *)

(** On the square of side 100 at the origin and a pointer of integers, the
    function runs without rounding. *)
Lemma exact_run_5_50 : exact_run square64 (pointer64 5 50) square (pointer 5 50).
Proof. by_evaluation. Qed.

Lemma exact_run_50_5 : exact_run square64 (pointer64 50 5) square (pointer 50 5).
Proof. by_evaluation. Qed.

Lemma exact_run_50_50 : exact_run square64 (pointer64 50 50) square (pointer 50 50).
Proof. by_evaluation. Qed.

Lemma exact_run_30_30 : exact_run square64 (pointer64 30 30) square (pointer 30 30).
Proof. by_evaluation. Qed.


Lemma exact_run_150_50 : exact_run square64 (pointer64 150 50) square (pointer 150 50).
Proof. by_evaluation. Qed.

Lemma exact_run_30_50 : exact_run square64 (pointer64 30 50) square (pointer 30 50).
Proof. by_evaluation. Qed.

Lemma exact_run_0_50 : exact_run square64 (pointer64 0 50) square (pointer 0 50).
Proof. by_evaluation. Qed.

Lemma exact_run_half_turn :
  exact_run square64 (pointer64 95 50) square (rotate180 square (pointer 5 50)).
Proof. by_evaluation. Qed.



(** C2, as stated, fails at the centre of the square of side 100: the
    pointer is on both diagonals, the run has no rounding and the result is
    Center. *)
Lemma binary64_diagonal_in_center_is_Center :
  exact_run square64 (pointer64 50 50) square (pointer 50 50) /\
  positive_size square /\ within square (pointer 50 50) /\
  on_main_diagonal square (pointer 50 50) /\ on_anti_diagonal square (pointer 50 50) /\
  determineDropDirection (Some square64) (Some (pointer64 50 50))
  = Some (DropDirection_value Center) /\
  determineDropDirection (Some square64) (Some (pointer64 50 50)) <> None.
Proof. by_evaluation. Qed.

(** On a diagonal, rounding gives a direction as well: on the square of side
    1.3 at the origin the pointer at (0.5, 0.8) is on the second diagonal
    and outside the centre region, the second diagonal expression does not
    round to zero and the result is Left. *)
Lemma binary64_rounded_diagonal_Left :
  denotes_rectangle (rectangle (tenths 13) (tenths 13) (lit 0) (lit 0)) (rectangle_value (rectangle (tenths 13) (tenths 13) (lit 0) (lit 0))) /\
  denotes_pointer (point (tenths 5) (tenths 8)) (pointer_value (point (tenths 5) (tenths 8))) /\
  positive_size (rectangle_value (rectangle (tenths 13) (tenths 13) (lit 0) (lit 0))) /\
  within (rectangle_value (rectangle (tenths 13) (tenths 13) (lit 0) (lit 0))) (pointer_value (point (tenths 5) (tenths 8))) /\
  on_anti_diagonal (rectangle_value (rectangle (tenths 13) (tenths 13) (lit 0) (lit 0))) (pointer_value (point (tenths 5) (tenths 8))) /\
  ~ in_center (rectangle_value (rectangle (tenths 13) (tenths 13) (lit 0) (lit 0))) (pointer_value (point (tenths 5) (tenths 8))) /\
  determineDropDirection (Some (rectangle (tenths 13) (tenths 13) (lit 0) (lit 0))) (Some (point (tenths 5) (tenths 8))) = Some (DropDirection_value Left).
Proof.
  repeat match goal with |- _ /\ _ => split end; try by_evaluation.
  intros (E & _). revert E. by_evaluation.
Qed.

Lemma binary64_diagonal_undefined_or_Center_witness :
  determineDropDirection (Some square64) (Some (pointer64 30 30)) = None /\
  determineDropDirection (Some square64) (Some (pointer64 50 50))
  = Some (DropDirection_value Center).
Proof.
  split.
  - destruct exact_run_30_30 as (Hb & Hc & Hd & _).
    apply (binary64_diagonal_undefined_or_Center
             square64 (pointer64 30 30) square (pointer 30 30) Hb Hc Hd).
    + exact square_positive.
    + by_evaluation.
    + left. by_evaluation.
    + intros (E & _). revert E. by_evaluation.
  - destruct exact_run_50_50 as (Hb & Hc & Hd & _).
    apply (binary64_diagonal_undefined_or_Center
             square64 (pointer64 50 50) square (pointer 50 50) Hb Hc Hd).
    + exact square_positive.
    + by_evaluation.
    + left. by_evaluation.
    + by_evaluation.
Defined.

(** C3, as stated, fails on the rectangle of 159.5 by 300.1 at the origin
    with the pointer at (31.9, 198): the pointer is in the left triangle and
    closer to the left edge than a fifth of the width, [xOuter1] rounds onto
    the abscissa of the pointer and the result is Left. *)
Lemma binary64_rounded_margin_inner :
  denotes_rectangle (rectangle (tenths 1595) (tenths 3001) (lit 0) (lit 0)) (rectangle_value (rectangle (tenths 1595) (tenths 3001) (lit 0) (lit 0))) /\
  denotes_pointer (point (tenths 319) (lit 198)) (pointer_value (point (tenths 319) (lit 198))) /\
  positive_size (rectangle_value (rectangle (tenths 1595) (tenths 3001) (lit 0) (lit 0))) /\
  strictly_inside (rectangle_value (rectangle (tenths 1595) (tenths 3001) (lit 0) (lit 0))) (pointer_value (point (tenths 319) (lit 198))) /\
  ~ on_main_diagonal (rectangle_value (rectangle (tenths 1595) (tenths 3001) (lit 0) (lit 0))) (pointer_value (point (tenths 319) (lit 198))) /\
  ~ on_anti_diagonal (rectangle_value (rectangle (tenths 1595) (tenths 3001) (lit 0) (lit 0))) (pointer_value (point (tenths 319) (lit 198))) /\
  ~ in_center (rectangle_value (rectangle (tenths 1595) (tenths 3001) (lit 0) (lit 0))) (pointer_value (point (tenths 319) (lit 198))) /\
  (relX (rectangle_value (rectangle (tenths 1595) (tenths 3001) (lit 0) (lit 0))) (pointer_value (point (tenths 319) (lit 198))) < (1 # 5) * width (rectangle_value (rectangle (tenths 1595) (tenths 3001) (lit 0) (lit 0))))%Q /\
  in_quadrant (rectangle_value (rectangle (tenths 1595) (tenths 3001) (lit 0) (lit 0))) (pointer_value (point (tenths 319) (lit 198))) Left /\
  determineDropDirection (Some (rectangle (tenths 1595) (tenths 3001) (lit 0) (lit 0))) (Some (point (tenths 319) (lit 198))) = Some (DropDirection_value Left).
Proof.
  repeat match goal with |- _ /\ _ => split end; try by_evaluation.
  intros (E & _). revert E. by_evaluation.
Qed.

(** The two scenarios of C3, in binary64: the pointer at (5, 50) gives
    OuterLeft and the pointer at (50, 5) gives OuterTop. *)
Lemma binary64_outer_margin_outer_variant_witness :
  determineDropDirection (Some square64) (Some (pointer64 5 50))
  = Some (DropDirection_value OuterLeft) /\
  determineDropDirection (Some square64) (Some (pointer64 50 5))
  = Some (DropDirection_value OuterTop).
Proof.
  split.
  - assert (strictly_inside square (pointer 5 50)) as H1 by by_evaluation.
    assert (~ on_main_diagonal square (pointer 5 50)) as H2 by by_evaluation.
    assert (~ on_anti_diagonal square (pointer 5 50)) as H3 by by_evaluation.
    assert (~ in_center square (pointer 5 50)) as H4
        by (intros (E & _); revert E; by_evaluation).
    assert (in_outer_margin square (pointer 5 50)) as H5 by (left; by_evaluation).
    destruct (proj1 binary64_outer_margin_outer_variant
                square64 (pointer64 5 50) square (pointer 5 50)
                exact_run_5_50 square_positive H1 H2 H3 H4 H5) as (d & Hq & E).
    destruct d; cbn [in_quadrant] in Hq; try contradiction; try exact E;
      exfalso; destruct Hq as [Hq1 Hq2]; revert Hq1 Hq2; by_evaluation.
  - assert (strictly_inside square (pointer 50 5)) as H1 by by_evaluation.
    assert (~ on_main_diagonal square (pointer 50 5)) as H2 by by_evaluation.
    assert (~ on_anti_diagonal square (pointer 50 5)) as H3 by by_evaluation.
    assert (~ in_center square (pointer 50 5)) as H4
        by (intros (_ & _ & E & _); revert E; by_evaluation).
    assert (in_outer_margin square (pointer 50 5)) as H5
        by (right; right; left; by_evaluation).
    destruct (proj1 binary64_outer_margin_outer_variant
                square64 (pointer64 50 5) square (pointer 50 5)
                exact_run_50_5 square_positive H1 H2 H3 H4 H5) as (d & Hq & E).
    destruct d; cbn [in_quadrant] in Hq; try contradiction; try exact E;
      exfalso; destruct Hq as [Hq1 Hq2]; revert Hq1 Hq2; by_evaluation.
Defined.

(** C4, as stated, fails on the unit square at the origin with the pointer
    at (0.4, 0.5): the binary64 number 0.4 is above 2/5, so that the pointer
    is in the centre region, [centerX1] rounds onto it and the result is
    Left. *)
Lemma binary64_rounded_center_bound :
  denotes_rectangle (rectangle (lit 1) (lit 1) (lit 0) (lit 0)) (rectangle_value (rectangle (lit 1) (lit 1) (lit 0) (lit 0))) /\
  denotes_pointer (point (tenths 4) (tenths 5)) (pointer_value (point (tenths 4) (tenths 5))) /\
  positive_size (rectangle_value (rectangle (lit 1) (lit 1) (lit 0) (lit 0))) /\
  within (rectangle_value (rectangle (lit 1) (lit 1) (lit 0) (lit 0))) (pointer_value (point (tenths 4) (tenths 5))) /\
  in_center (rectangle_value (rectangle (lit 1) (lit 1) (lit 0) (lit 0))) (pointer_value (point (tenths 4) (tenths 5))) /\
  determineDropDirection (Some (rectangle (lit 1) (lit 1) (lit 0) (lit 0))) (Some (point (tenths 4) (tenths 5))) = Some (DropDirection_value Left).
Proof. by_evaluation. Qed.

(** The scenario of C4, in binary64: the pointer at (50, 50) gives Center. *)
Lemma binary64_Center_iff_in_center_witness :
  determineDropDirection (Some square64) (Some (pointer64 50 50))
  = Some (DropDirection_value Center).
Proof.
  destruct exact_run_50_50 as (Hb & Hc & _).
  apply (proj2 (proj1 binary64_Center_iff_in_center
                  square64 (pointer64 50 50) square (pointer 50 50) Hb Hc
                  square_positive ltac:(by_evaluation))).
  by_evaluation.
Defined.

(** C5, as stated, fails on the square of side 226 at the origin with the
    pointer at (180.8, 99.8): the pointer after the half turn is a binary64
    pointer, the pointer gives Right and the pointer after the half turn
    gives OuterLeft, not Left. *)
Lemma binary64_half_turn_differs :
  denotes_rectangle (rectangle (lit 226) (lit 226) (lit 0) (lit 0)) (rectangle_value (rectangle (lit 226) (lit 226) (lit 0) (lit 0))) /\
  denotes_pointer (point (tenths 1808) (tenths 998)) (pointer_value (point (tenths 1808) (tenths 998))) /\
  denotes_pointer (point (PrimFloat.sub (lit 226) (tenths 1808)) (PrimFloat.sub (lit 226) (tenths 998))) (rotate180 (rectangle_value (rectangle (lit 226) (lit 226) (lit 0) (lit 0))) (pointer_value (point (tenths 1808) (tenths 998)))) /\
  positive_size (rectangle_value (rectangle (lit 226) (lit 226) (lit 0) (lit 0))) /\
  strictly_inside (rectangle_value (rectangle (lit 226) (lit 226) (lit 0) (lit 0))) (pointer_value (point (tenths 1808) (tenths 998))) /\
  ~ on_main_diagonal (rectangle_value (rectangle (lit 226) (lit 226) (lit 0) (lit 0))) (pointer_value (point (tenths 1808) (tenths 998))) /\
  ~ on_anti_diagonal (rectangle_value (rectangle (lit 226) (lit 226) (lit 0) (lit 0))) (pointer_value (point (tenths 1808) (tenths 998))) /\
  determineDropDirection (Some (rectangle (lit 226) (lit 226) (lit 0) (lit 0))) (Some (point (tenths 1808) (tenths 998))) = Some (DropDirection_value Right) /\
  determineDropDirection (Some (rectangle (lit 226) (lit 226) (lit 0) (lit 0))) (Some (point (PrimFloat.sub (lit 226) (tenths 1808)) (PrimFloat.sub (lit 226) (tenths 998)))) = Some (DropDirection_value OuterLeft) /\
  opposite Right <> OuterLeft.
Proof. by_evaluation. Qed.

Lemma binary64_half_turn_opposite_direction_witness :
  exists d,
    determineDropDirection (Some square64) (Some (pointer64 5 50))
    = Some (DropDirection_value d) /\
    determineDropDirection (Some square64) (Some (pointer64 95 50))
    = Some (DropDirection_value (opposite d)).
Proof.
  apply (binary64_half_turn_opposite_direction
           square64 (pointer64 5 50) square (pointer 5 50) (pointer64 95 50)
           exact_run_5_50 exact_run_half_turn square_positive).
  - by_evaluation.
  - by_evaluation.
  - by_evaluation.
Defined.

(** C6, as stated, fails on the unit square at (0.1, 0) with the pointer at
    (1.1, 0.5): the pointer is to the right of the rectangle, the offset
    rounds onto the width and the result is OuterRight. *)
Lemma binary64_rounded_offset_inside :
  denotes_rectangle (rectangle (lit 1) (lit 1) (tenths 1) (lit 0)) (rectangle_value (rectangle (lit 1) (lit 1) (tenths 1) (lit 0))) /\
  denotes_pointer (point (tenths 11) (tenths 5)) (pointer_value (point (tenths 11) (tenths 5))) /\
  positive_size (rectangle_value (rectangle (lit 1) (lit 1) (tenths 1) (lit 0))) /\
  (width (rectangle_value (rectangle (lit 1) (lit 1) (tenths 1) (lit 0))) < relX (rectangle_value (rectangle (lit 1) (lit 1) (tenths 1) (lit 0))) (pointer_value (point (tenths 11) (tenths 5))))%Q /\
  determineDropDirection (Some (rectangle (lit 1) (lit 1) (tenths 1) (lit 0))) (Some (point (tenths 11) (tenths 5)))
  = Some (DropDirection_value OuterRight).
Proof. by_evaluation. Qed.

(** The scenario of C6, in binary64: the pointer at (150, 50) gives
    [undefined]. *)
Lemma binary64_outside_undefined_witness :
  determineDropDirection (Some square64) (Some (pointer64 150 50)) = None.
Proof.
  destruct exact_run_150_50 as (Hb & _).
  apply (proj1 binary64_outside_undefined
           square64 (pointer64 150 50) square (pointer 150 50) Hb square_positive).
  right. left. by_evaluation.
Defined.

(** ** More of the drop zones in binary64 *)

Section Binary64Zones.
Variables (R : Dimensions float) (P : XYCoord float).
Variables (RQ : Dimensions Q) (PQ : XYCoord Q).

(** X2. For a binary64 rectangle and pointer whose offsets, centre bounds
    and diagonal expressions the function computes without rounding: when
    the rectangle has positive width and height, the result is [undefined]
    exactly when the pointer is outside the rectangle, or on a diagonal and
    not in the centre region. *)
Theorem binary64_undefined_iff_outside_or_diagonal :
  exact_box R P RQ PQ -> exact_center_bounds R RQ -> exact_diagonals R P RQ PQ ->
  positive_size RQ ->
  (determineDropDirection (Some R) (Some P) = None
   <-> outside RQ PQ \/ (on_diagonal RQ PQ /\ ~ in_center RQ PQ)).
Proof.
  intros Hb Hc Hd Hsize. rewrite (undefined_agrees R P RQ PQ Hb Hc Hd).
  apply undefined_iff_outside_or_diagonal. exact Hsize.
Qed.

(** X3. For a binary64 rectangle and pointer on which the function runs
    without rounding: strictly inside the rectangle, on neither diagonal,
    outside the centre region and outside the outer fifths, the result is
    the inner direction of the triangle the pointer is in. *)
Theorem binary64_inner_region_inner_variant :
  exact_run R P RQ PQ ->
  positive_size RQ -> strictly_inside RQ PQ ->
  ~ on_main_diagonal RQ PQ -> ~ on_anti_diagonal RQ PQ ->
  ~ in_center RQ PQ -> ~ in_outer_margin RQ PQ ->
  exists d, in_quadrant RQ PQ d /\ outer d <> d /\
    determineDropDirection (Some R) (Some P) = Some (DropDirection_value d).
Proof.
  intros Hrun. rewrite (exact_run_result R P RQ PQ Hrun).
  apply inner_region_inner_variant.
Qed.

(** X4. For a binary64 rectangle and pointer on which the function runs
    without rounding: the test for a pointer outside the rectangle is
    strict, and a pointer on an edge of the rectangle, its two ends
    excluded, gets the outer direction of that edge. *)
Theorem binary64_edge_outer_direction (d : DropDirection) :
  exact_run R P RQ PQ ->
  positive_size RQ -> on_edge RQ PQ d ->
  determineDropDirection (Some R) (Some P) = Some (DropDirection_value (outer d)).
Proof.
  intros Hrun. rewrite (exact_run_result R P RQ PQ Hrun).
  apply edge_outer_direction.
Qed.

(** X5. For a binary64 rectangle and pointer whose offsets, centre bounds
    and diagonal expressions the function computes without rounding, NaN
    and the infinities excluded with it: a direction comes out only for a
    rectangle of positive width and positive height. *)
Theorem binary64_direction_needs_positive_size (code : Z) :
  exact_box R P RQ PQ -> exact_center_bounds R RQ -> exact_diagonals R P RQ PQ ->
  determineDropDirection (Some R) (Some P) = Some code -> positive_size RQ.
Proof.
  intros Hb Hc Hd E.
  destruct (determineDropDirection (Some RQ) (Some PQ)) as [c |] eqn:EQ.
  - exact (direction_needs_positive_size RQ PQ c EQ).
  - apply (undefined_agrees R P RQ PQ Hb Hc Hd) in EQ. rewrite EQ in E. discriminate E.
Qed.

(** X6. The result depends on the pointer relative to the rectangle only:
    for a binary64 rectangle and pointer and their images under one
    translation, on both of which the function runs without rounding, the
    result is the same. *)
Theorem binary64_moved (R' : Dimensions float) (P' : XYCoord float) (dx dy : Q) :
  exact_run R P RQ PQ ->
  exact_run R' P' (move_rectangle RQ dx dy) (move_pointer PQ dx dy) ->
  determineDropDirection (Some R') (Some P') = determineDropDirection (Some R) (Some P).
Proof.
  intros Hrun Hrun'.
  rewrite (exact_run_result R P RQ PQ Hrun), (exact_run_result R' P' _ _ Hrun').
  apply determineDropDirection_moved.
Qed.

(** X7. The result does not depend on the unit of length: for a binary64
    rectangle and pointer and their multiples by one positive number, on
    both of which the function runs without rounding and without overflow,
    the result is the same. *)
Theorem binary64_scaled (R' : Dimensions float) (P' : XYCoord float) (k : Q) :
  (0 < k)%Q ->
  exact_run R P RQ PQ ->
  exact_run R' P' (scale_rectangle RQ k) (scale_pointer PQ k) ->
  determineDropDirection (Some R') (Some P') = determineDropDirection (Some R) (Some P).
Proof.
  intros Hk Hrun Hrun'.
  rewrite (exact_run_result R P RQ PQ Hrun), (exact_run_result R' P' _ _ Hrun').
  apply determineDropDirection_scaled. exact Hk.
Qed.

(** X8. For a binary64 rectangle, a pointer and its mirror image in the
    vertical axis through the centre of the rectangle, on both of which the
    function runs without rounding: when the pointer is strictly inside the
    rectangle and on neither diagonal, the mirror image exchanges Left with
    Right, and OuterLeft with OuterRight, and keeps every other direction. *)
Theorem binary64_mirror_horizontally_flips (P' : XYCoord float) :
  exact_run R P RQ PQ -> exact_run R P' RQ (mirror_horizontally RQ PQ) ->
  positive_size RQ -> strictly_inside RQ PQ ->
  ~ on_main_diagonal RQ PQ -> ~ on_anti_diagonal RQ PQ ->
  exists d,
    determineDropDirection (Some R) (Some P) = Some (DropDirection_value d) /\
    determineDropDirection (Some R) (Some P')
    = Some (DropDirection_value (flip_horizontally d)).
Proof.
  intros Hrun Hrun'.
  rewrite (exact_run_result R P RQ PQ Hrun), (exact_run_result R P' RQ _ Hrun').
  apply mirror_horizontally_flips.
Qed.

(** X9. For a binary64 rectangle, a pointer and its mirror image in the
    horizontal axis through the centre of the rectangle, on both of which
    the function runs without rounding: when the pointer is strictly inside
    the rectangle and on neither diagonal, the mirror image exchanges Top
    with Bottom, and OuterTop with OuterBottom, and keeps every other
    direction. *)
Theorem binary64_mirror_vertically_flips (P' : XYCoord float) :
  exact_run R P RQ PQ -> exact_run R P' RQ (mirror_vertically RQ PQ) ->
  positive_size RQ -> strictly_inside RQ PQ ->
  ~ on_main_diagonal RQ PQ -> ~ on_anti_diagonal RQ PQ ->
  exists d,
    determineDropDirection (Some R) (Some P) = Some (DropDirection_value d) /\
    determineDropDirection (Some R) (Some P')
    = Some (DropDirection_value (flip_vertically d)).
Proof.
  intros Hrun Hrun'.
  rewrite (exact_run_result R P RQ PQ Hrun), (exact_run_result R P' RQ _ Hrun').
  apply mirror_vertically_flips.
Qed.

End Binary64Zones.

Lemma exact_run_mirror_horizontally :
  exact_run square64 (pointer64 95 50) square (mirror_horizontally square (pointer 5 50)).
Proof. by_evaluation. Qed.

Lemma exact_run_mirror_vertically :
  exact_run square64 (pointer64 50 95) square (mirror_vertically square (pointer 50 5)).
Proof. by_evaluation. Qed.

Lemma exact_run_moved :
  exact_run (rectangle (lit 100) (lit 100) (lit 10) (lit 20)) (pointer64 15 70)
            (move_rectangle square 10 20) (move_pointer (pointer 5 50) 10 20).
Proof. by_evaluation. Qed.

Lemma exact_run_scaled :
  exact_run (rectangle (lit 200) (lit 200) (lit 0) (lit 0)) (pointer64 10 100)
            (scale_rectangle square 2) (scale_pointer (pointer 5 50) 2).
Proof. by_evaluation. Qed.

Lemma binary64_undefined_iff_outside_or_diagonal_witness :
  determineDropDirection (Some square64) (Some (pointer64 150 50)) = None
  <-> outside square (pointer 150 50) \/
      (on_diagonal square (pointer 150 50) /\ ~ in_center square (pointer 150 50)).
Proof.
  destruct exact_run_150_50 as (Hb & Hc & Hd & _).
  exact (binary64_undefined_iff_outside_or_diagonal
           square64 (pointer64 150 50) square (pointer 150 50) Hb Hc Hd square_positive).
Defined.

Lemma binary64_inner_region_inner_variant_witness :
  exists d, in_quadrant square (pointer 30 50) d /\ outer d <> d /\
    determineDropDirection (Some square64) (Some (pointer64 30 50))
    = Some (DropDirection_value d).
Proof.
  apply (binary64_inner_region_inner_variant
           square64 (pointer64 30 50) square (pointer 30 50)
           exact_run_30_50 square_positive).
  - by_evaluation.
  - by_evaluation.
  - by_evaluation.
  - intros (E & _). revert E. by_evaluation.
  - intros [E | [E | [E | E]]]; revert E; by_evaluation.
Defined.

Lemma binary64_edge_outer_direction_witness :
  on_edge square (pointer 0 50) Left /\
  determineDropDirection (Some square64) (Some (pointer64 0 50))
  = Some (DropDirection_value OuterLeft).
Proof.
  assert (on_edge square (pointer 0 50) Left) as He by by_evaluation.
  split; [exact He |].
  exact (binary64_edge_outer_direction
           square64 (pointer64 0 50) square (pointer 0 50) Left
           exact_run_0_50 square_positive He).
Defined.

Lemma binary64_direction_needs_positive_size_witness :
  determineDropDirection (Some square64) (Some (pointer64 5 50)) = Some 7%Z /\
  positive_size square.
Proof.
  assert (determineDropDirection (Some square64) (Some (pointer64 5 50)) = Some 7%Z) as E
      by (vm_compute; reflexivity).
  split; [exact E |].
  destruct exact_run_5_50 as (Hb & Hc & Hd & _).
  exact (binary64_direction_needs_positive_size
           square64 (pointer64 5 50) square (pointer 5 50) 7%Z Hb Hc Hd E).
Defined.

Lemma binary64_moved_witness :
  determineDropDirection (Some (rectangle (lit 100) (lit 100) (lit 10) (lit 20)))
                         (Some (pointer64 15 70))
  = determineDropDirection (Some square64) (Some (pointer64 5 50)).
Proof.
  exact (binary64_moved square64 (pointer64 5 50) square (pointer 5 50)
           (rectangle (lit 100) (lit 100) (lit 10) (lit 20)) (pointer64 15 70) 10 20
           exact_run_5_50 exact_run_moved).
Defined.

Lemma binary64_scaled_witness :
  determineDropDirection (Some (rectangle (lit 200) (lit 200) (lit 0) (lit 0)))
                         (Some (pointer64 10 100))
  = determineDropDirection (Some square64) (Some (pointer64 5 50)).
Proof.
  apply (binary64_scaled square64 (pointer64 5 50) square (pointer 5 50)
           (rectangle (lit 200) (lit 200) (lit 0) (lit 0)) (pointer64 10 100) 2).
  - by_evaluation.
  - exact exact_run_5_50.
  - exact exact_run_scaled.
Defined.

Lemma binary64_mirror_horizontally_flips_witness :
  exists d,
    determineDropDirection (Some square64) (Some (pointer64 5 50))
    = Some (DropDirection_value d) /\
    determineDropDirection (Some square64) (Some (pointer64 95 50))
    = Some (DropDirection_value (flip_horizontally d)).
Proof.
  apply (binary64_mirror_horizontally_flips
           square64 (pointer64 5 50) square (pointer 5 50) (pointer64 95 50)
           exact_run_5_50 exact_run_mirror_horizontally square_positive).
  - by_evaluation.
  - by_evaluation.
  - by_evaluation.
Defined.

Lemma binary64_mirror_vertically_flips_witness :
  exists d,
    determineDropDirection (Some square64) (Some (pointer64 50 5))
    = Some (DropDirection_value d) /\
    determineDropDirection (Some square64) (Some (pointer64 50 95))
    = Some (DropDirection_value (flip_vertically d)).
Proof.
  apply (binary64_mirror_vertically_flips
           square64 (pointer64 50 5) square (pointer 50 5) (pointer64 50 95)
           exact_run_50_5 exact_run_mirror_vertically square_positive).
  - by_evaluation.
  - by_evaluation.
  - by_evaluation.
Defined.

(** ** [checkForCursorBounds] in binary64 *)

Lemma Qle_bool_reflect (a b : Q) : reflect (a <= b)%Q (Qle_bool a b).
Proof. apply iff_reflect. symmetry. apply Qle_bool_iff. Qed.

(** X11. For a display container and a drag offset in binary64 whose
    differences [normalizedX] and [normalizedY] the function computes
    without rounding: [checkForCursorBounds] dispatches ClearPendingAction
    exactly when the offset is not strictly inside the rectangle of the
    container, the border included, and it dispatches nothing otherwise;
    [getCursorPoint] is the fallback of a missing drag offset only. *)
Theorem binary64_checkForCursorBounds_clears_iff
    (getCursorPoint : option (unit -> XYCoord float))
    (container : DOM.DOMRect float) (offset : XYCoord float)
    (CQ : DOM.DOMRect Q) (OQ : XYCoord Q) :
  denotes_size container CQ -> exact_normalized container offset CQ OQ ->
  (checkForCursorBounds getCursorPoint (Some container) (Some offset) = [ClearPendingAction]
   <-> ~ strictly_inside (Dimensions_of_DOMRect CQ) OQ) /\
  (checkForCursorBounds getCursorPoint (Some container) (Some offset) = []
   <-> strictly_inside (Dimensions_of_DOMRect CQ) OQ) /\
  checkForCursorBounds (Some (fun _ => offset)) (Some container) None
  = checkForCursorBounds getCursorPoint (Some container) (Some offset).
Proof.
  intros (Hw & Hh) (Hx & Hy).
  unfold checkForCursorBounds. cbn [option_map]. cbv zeta.
  cbn [lteb gteb float_order].
  rewrite (leb_denotes _ _ _ _ Hx denotes_lit_0),
          (leb_denotes _ _ _ _ Hw Hx),
          (leb_denotes _ _ _ _ Hy denotes_lit_0),
          (leb_denotes _ _ _ _ Hh Hy).
  unfold strictly_inside.
  change (width (Dimensions_of_DOMRect CQ)) with (DOM.width CQ).
  change (height (Dimensions_of_DOMRect CQ)) with (DOM.height CQ).
  repeat match goal with
         | |- context [Qle_bool ?a ?b] => destruct (Qle_bool_reflect a b)
         end;
    cbn [orb]; repeat split; intros; try discriminate; try reflexivity; lra.
Qed.

Lemma binary64_checkForCursorBounds_clears_iff_witness :
  checkForCursorBounds None (Some (DOMRect64 (lit 10) (lit 20) (lit 100) (lit 100)))
                       (Some (pointer64 110 50)) = [ClearPendingAction].
Proof.
  apply (binary64_checkForCursorBounds_clears_iff None
           (DOMRect64 (lit 10) (lit 20) (lit 100) (lit 100)) (pointer64 110 50)
           (DOMRect_value (DOMRect64 (lit 10) (lit 20) (lit 100) (lit 100)))
           (pointer 110 50)).
  - by_evaluation.
  - by_evaluation.
  - intros (_ & E & _). revert E. by_evaluation.
Defined.

(** ** [canDrop]: the whole condition *)

(** X10. [canDrop] accepts exactly when the monitor reports a shallow hover
    and the identifier of the dragged item is not the identifier of the
    node: a drag without an item is accepted, and so is no other node that
    carries the identifier of the target. *)
Theorem canDrop_iff (layoutNode : LayoutNode) (monitor : DropTargetMonitor) :
  canDrop layoutNode monitor = true <->
  isOver_shallow monitor = true /\
  (forall dragItem, getItem monitor = Some dragItem -> id dragItem <> id layoutNode).
Proof.
  split.
  - intros Hc. unfold canDrop in Hc.
    destruct (isOver monitor true) eqn:Hover; cbn [andb] in Hc; [| discriminate Hc].
    split; [exact Hover |].
    intros dragItem E. rewrite E in Hc. cbn [option_map strict_neq] in Hc.
    destruct (String.eqb_spec (id dragItem) (id layoutNode)) as [Heq | Hne];
      [discriminate Hc | exact Hne].
  - intros [Hover Hid]. apply canDrop_true; [exact Hover |].
    destruct (getItem monitor) as [dragItem |]; cbn [option_map]; [| discriminate].
    intros E. injection E as E. exact (Hid dragItem eq_refl E).
Qed.

(** ** [debounce]: one timer at a time *)

Section DebounceTimers.
Variables Args Ret Delay : Type.
Variables (callback : Args -> Ret) (waitFor : Delay).

Lemma debounce_state (args : Args) (rt : Runtime Args Ret Delay) :
  one_timer rt ->
  snd (runState (debounce callback waitFor args) rt)
  = {| next_timer := S (next_timer rt);
       timers := [{| timer_id := next_timer rt; timer_delay := waitFor;
                     timer_args := args; timer_result := List.length (results rt) |}];
       timeout := Some (next_timer rt);
       results := results rt ++ [None] |}.
Proof.
  intros [E | (t & E & Ht)]; unfold debounce; cbn; rewrite ?Ht; cbn; rewrite E; cbn.
  - destruct (timeout rt); reflexivity.
  - rewrite Nat.eqb_refl. reflexivity.
Qed.

Lemma debounce_one_timer (args : Args) (rt : Runtime Args Ret Delay) :
  one_timer rt -> one_timer (snd (runState (debounce callback waitFor args) rt)).
Proof.
  intros Hrt. rewrite (debounce_state args rt Hrt). right. eexists. split; reflexivity.
Qed.

Lemma fire_one_timer (i : nat) (rt : Runtime Args Ret Delay) :
  one_timer rt -> one_timer (snd (runState (fire callback i) rt)).
Proof.
  intros [E | (t & E & Ht)]; unfold fire; cbn; rewrite E; cbn.
  - left. exact E.
  - destruct (Nat.eqb (timer_id t) i) eqn:Hi; cbn.
    + rewrite E. cbn. rewrite Hi. left. reflexivity.
    + right. exists t. split; assumption.
Qed.

Lemma after_cons (ev : Event Args) (events : list (Event Args)) (rt : Runtime Args Ret Delay) :
  after callback waitFor (ev :: events) rt
  = after callback waitFor events
      (match ev with
       | Invoke args => snd (runState (debounce callback waitFor args) rt)
       | Fire i => snd (runState (fire callback i) rt)
       end).
Proof.
  unfold after. destruct ev as [args | i]; cbn [run].
  - change (runState (bind (debounce callback waitFor args)
              (fun v => bind (run callback waitFor events) (fun vs => ret (v :: vs)))) rt)
      with (let (v, rt') := runState (debounce callback waitFor args) rt in
            let (vs, rt'') := runState (run callback waitFor events) rt' in
            (v :: vs, rt'')).
    destruct (runState (debounce callback waitFor args) rt) as [v rt'].
    cbn [snd]. destruct (runState (run callback waitFor events) rt'); reflexivity.
  - change (runState (bind (fire callback i) (fun _ => run callback waitFor events)) rt)
      with (let (_, rt') := runState (fire callback i) rt in
            runState (run callback waitFor events) rt').
    destruct (runState (fire callback i) rt) as [u rt']. reflexivity.
Qed.

Lemma after_one_timer (events : list (Event Args)) (rt : Runtime Args Ret Delay) :
  one_timer rt -> one_timer (after callback waitFor events rt).
Proof.
  revert rt. induction events as [| [args | i] events IH]; intros rt Hrt.
  - exact Hrt.
  - rewrite after_cons. apply IH, debounce_one_timer, Hrt.
  - rewrite after_cons. apply IH, fire_one_timer, Hrt.
Qed.

Lemma initial_one_timer : one_timer (initial : Runtime Args Ret Delay).
Proof. left. reflexivity. Qed.

(** X12. After any course of invocations and firings, an invocation leaves
    exactly one timer scheduled, its own, with its arguments and the wait:
    every timer of an earlier invocation that had not fired is cancelled. *)
Theorem debounce_cancels_earlier_timers (events : list (Event Args)) (args : Args) :
  let rt := after callback waitFor events initial in
  let rt' := snd (runState (debounce callback waitFor args) rt) in
  timers rt' = [{| timer_id := next_timer rt; timer_delay := waitFor;
                   timer_args := args; timer_result := List.length (results rt) |}] /\
  timeout rt' = Some (next_timer rt).
Proof.
  cbv zeta.
  rewrite (debounce_state args _ (after_one_timer events initial initial_one_timer)).
  split; reflexivity.
Qed.

Lemma assign_fresh {A : Type} (l : list A) (v w : A) :
  assign (l ++ [v]) (List.length l) w = l ++ [w].
Proof. induction l as [| h t IH]; cbn; [reflexivity | rewrite IH; reflexivity]. Qed.

(** X13. After any course of invocations and firings, when the timer of the
    latest invocation fires, the callback runs on the arguments of that
    invocation, its result goes to the variable of that invocation, and no
    timer is left: the callback never runs for an invocation that another
    one has followed. *)
Theorem debounce_runs_latest_only (events : list (Event Args)) (args : Args) :
  let rt := after callback waitFor events initial in
  let rt' := after callback waitFor [Invoke args; Fire (next_timer rt)] rt in
  results rt' = results rt ++ [Some (callback args)] /\ timers rt' = [].
Proof.
  cbv zeta. rewrite !after_cons.
  rewrite (debounce_state args _ (after_one_timer events initial initial_one_timer)).
  unfold after, fire; cbn. rewrite Nat.eqb_refl. cbn. rewrite Nat.eqb_refl. cbn.
  split; [apply assign_fresh | reflexivity].
Qed.

End DebounceTimers.

(** ** [lazy] *)

Section LazyProperties.
Variables Args Ret Exn : Type.
Variable callback : list Args -> Args -> Ret + Exn.

Lemma lazy_run_cons (args : Args) (argss : list Args) (st : LazyState Args Ret) :
  runState (lazy_run callback (args :: argss)) st
  = (let (r, st') := runState (lazy callback args) st in
     let (rs, st'') := runState (lazy_run callback argss) st' in
     (r :: rs, st'')).
Proof. reflexivity. Qed.

(** X14. Once the callback has returned, the wrapper returns the cached
    value at every invocation, whatever the arguments, and the callback is
    not invoked again. *)
Theorem lazy_cached_forever (st : LazyState Args Ret) (argss : list Args) :
  processed st = true ->
  runState (lazy_run callback argss) st
  = (repeat (inl (lazy_res st)) (List.length argss), st).
Proof.
  intros Hp. induction argss as [| args argss IH]; [reflexivity |].
  rewrite lazy_run_cons.
  assert (runState (lazy callback args) st = (inl (lazy_res st), st)) as E.
  { unfold lazy. cbn. rewrite Hp. reflexivity. }
  rewrite E, IH. reflexivity.
Qed.

Lemma lazy_step (args : Args) (st : LazyState Args Ret) :
  processed st = false ->
  runState (lazy callback args) st
  = match callback (lazy_calls st) args with
    | inl v => (inl (Some v),
                {| lazy_res := Some v; processed := true;
                   lazy_calls := lazy_calls st ++ [args] |})
    | inr e => (inr e,
                {| lazy_res := lazy_res st; processed := false;
                   lazy_calls := lazy_calls st ++ [args] |})
    end.
Proof.
  intros Hp. unfold lazy. cbn. rewrite Hp.
  destruct (callback (lazy_calls st) args); reflexivity.
Qed.

Lemma lazy_returns_agree_from (st : LazyState Args Ret) (argss : list Args)
    (v v' : option Ret) :
  In (inl v) (fst (runState (lazy_run callback argss) st)) ->
  In (inl v') (fst (runState (lazy_run callback argss) st)) ->
  v = v'.
Proof.
  revert st. induction argss as [| args argss IH]; intros st; [intros [] |].
  destruct (processed st) eqn:Hp.
  - rewrite (lazy_cached_forever st (args :: argss) Hp). cbn [fst].
    intros Hv Hv'. apply repeat_spec in Hv, Hv'. congruence.
  - rewrite lazy_run_cons, (lazy_step args st Hp).
    destruct (callback (lazy_calls st) args) as [w | e].
    + rewrite lazy_cached_forever by reflexivity. cbn [fst lazy_res].
      change (inl (Some w) :: repeat (inl (Some w)) (List.length argss))
        with (repeat (@inl (option Ret) Exn (Some w)) (S (List.length argss))).
      intros Hv Hv'. apply repeat_spec in Hv, Hv'. congruence.
    + specialize (IH {| lazy_res := lazy_res st; processed := false;
                        lazy_calls := lazy_calls st ++ [args] |}).
      destruct (runState (lazy_run callback argss)
                  {| lazy_res := lazy_res st; processed := false;
                     lazy_calls := lazy_calls st ++ [args] |}) as [rs st''].
      cbn [fst] in *. intros [Hv | Hv] [Hv' | Hv']; try discriminate. auto.
Qed.

(** X15. All the invocations of the wrapper that return, return the same
    value, whatever their arguments and whatever the callback would give
    for them. *)
Theorem lazy_returns_agree (argss : list Args) (v v' : option Ret) :
  In (inl v) (fst (runState (lazy_run callback argss) lazy_initial)) ->
  In (inl v') (fst (runState (lazy_run callback argss) lazy_initial)) ->
  v = v'.
Proof. apply lazy_returns_agree_from. Qed.

(** X16. An invocation in which the callback throws caches nothing: the
    wrapper throws the same exception, and the next invocation runs the
    callback again and returns what it then gives. *)
Theorem lazy_throw_not_cached (st : LazyState Args Ret) (args args' : Args)
    (e : Exn) (v : Ret) :
  processed st = false ->
  callback (lazy_calls st) args = inr e ->
  callback (lazy_calls st ++ [args]) args' = inl v ->
  runState (lazy_run callback [args; args']) st
  = ([inr e; inl (Some v)],
     {| lazy_res := Some v; processed := true;
        lazy_calls := (lazy_calls st ++ [args]) ++ [args'] |}).
Proof.
  intros Hp He Hv.
  rewrite lazy_run_cons, (lazy_step args st Hp), He.
  rewrite lazy_run_cons, lazy_step by reflexivity. cbn [lazy_calls]. rewrite Hv.
  reflexivity.
Qed.

End LazyProperties.

(** A callback that counts its invocations, and one that throws at the
    first of them. *)
Lemma lazy_cached_forever_witness :
  runState (lazy_run (fun calls (n : nat) => @inl nat unit (List.length calls + n)%nat) [5; 7; 9]%nat)
           {| lazy_res := Some 4%nat; processed := true; lazy_calls := [4%nat] |}
  = ([inl (Some 4%nat); inl (Some 4%nat); inl (Some 4%nat)],
     {| lazy_res := Some 4%nat; processed := true; lazy_calls := [4%nat] |}).
Proof.
  exact (lazy_cached_forever nat nat unit
           (fun calls n => inl (List.length calls + n)%nat)
           {| lazy_res := Some 4%nat; processed := true; lazy_calls := [4%nat] |}
           [5; 7; 9]%nat eq_refl).
Defined.

Lemma lazy_returns_agree_witness :
  In (inl (Some 5%nat))
     (fst (runState (lazy_run (fun calls (n : nat) => @inl nat unit (List.length calls + n)%nat)
                              [5; 7]%nat) lazy_initial)) /\
  Some 5%nat = Some 5%nat.
Proof.
  split; [left; reflexivity |].
  apply (lazy_returns_agree nat nat unit
           (fun calls n => inl (List.length calls + n)%nat) [5; 7]%nat).
  - left. reflexivity.
  - right. left. reflexivity.
Defined.

Lemma lazy_throw_not_cached_witness :
  runState (lazy_run (fun calls (n : nat) =>
                        match calls with [] => inr tt | _ => inl (n * 2)%nat end)
                     [5; 7]%nat)
           lazy_initial
  = ([inr tt; inl (Some 14%nat)],
     {| lazy_res := Some 14%nat; processed := true; lazy_calls := [5; 7]%nat |}).
Proof.
  exact (lazy_throw_not_cached nat nat unit
           (fun calls n => match calls with [] => inr tt | _ => inl (n * 2)%nat end)
           lazy_initial 5%nat 7%nat tt 14%nat eq_refl eq_refl eq_refl).
Defined.

(** ** [CopyButton] *)

Section CopyButtonProperties.
Variable MouseEvent : Type.
Variable onClick : bool.

Lemma handleOnClick_consistent (e : MouseEvent) (st : CopyButton MouseEvent) :
  copy_consistent st -> copy_consistent (snd (runState (handleOnClick onClick e) st)).
Proof.
  unfold copy_consistent, handleOnClick. cbn.
  destruct (rendered_isCopied st); cbn; [trivial |].
  destruct (timeoutRef st) as [i |]; intros [Hc Ht]; rewrite Ht; cbn.
  - rewrite Nat.eqb_refl. split; reflexivity.
  - split; reflexivity.
Qed.

Lemma copy_fire_consistent (i : nat) (st : CopyButton MouseEvent) :
  copy_consistent st -> copy_consistent (snd (runState (copy_fire i) st)).
Proof.
  unfold copy_consistent, copy_fire. cbn.
  destruct (timeoutRef st) as [j |] eqn:Hr; intros [Hc Ht]; rewrite Ht; cbn.
  - rewrite Bool.orb_false_r. destruct (Nat.eqb i j) eqn:Hij; cbn.
    + apply Nat.eqb_eq in Hij. subst j. rewrite Nat.eqb_refl. split; reflexivity.
    + rewrite Hr. split; assumption.
  - rewrite Hr. split; assumption.
Qed.

Lemma copy_render_consistent (st : CopyButton MouseEvent) :
  copy_consistent st -> copy_consistent (snd (runState copy_render st)).
Proof. intros H. exact H. Qed.

Lemma copy_step_consistent (ev : CopyEvent MouseEvent) (st : CopyButton MouseEvent) :
  copy_consistent st -> copy_consistent (snd (runState (copy_step onClick ev) st)).
Proof.
  destruct ev as [e | | i]; cbn [copy_step].
  - apply handleOnClick_consistent.
  - apply copy_render_consistent.
  - apply copy_fire_consistent.
Qed.

Lemma copy_after_cons (ev : CopyEvent MouseEvent) (events : list (CopyEvent MouseEvent))
    (st : CopyButton MouseEvent) :
  copy_after onClick (ev :: events) st
  = copy_after onClick events (snd (runState (copy_step onClick ev) st)).
Proof.
  unfold copy_after. cbn [copy_run].
  change (runState (bind (copy_step onClick ev) (fun _ => copy_run onClick events)) st)
    with (let (_, st') := runState (copy_step onClick ev) st in
          runState (copy_run onClick events) st').
  destruct (runState (copy_step onClick ev) st); reflexivity.
Qed.

Lemma copy_after_app (events events' : list (CopyEvent MouseEvent))
    (st : CopyButton MouseEvent) :
  copy_after onClick (events ++ events') st
  = copy_after onClick events' (copy_after onClick events st).
Proof.
  revert st. induction events as [| ev events IH]; intros st.
  - reflexivity.
  - cbn [app]. rewrite !copy_after_cons. apply IH.
Qed.

Lemma copy_after_consistent (events : list (CopyEvent MouseEvent)) (st : CopyButton MouseEvent) :
  copy_consistent st -> copy_consistent (copy_after onClick events st).
Proof.
  revert st. induction events as [| ev events IH]; intros st Hst.
  - exact Hst.
  - rewrite copy_after_cons. apply IH, copy_step_consistent, Hst.
Qed.

Lemma copy_initial_consistent : copy_consistent (copy_initial : CopyButton MouseEvent).
Proof. split; reflexivity. Qed.

(** X17. After any course of clicks, renderings and firings of timers, the
    scheduled timers are the timer that [timeoutRef] holds and no other, so
    that at most one timer is ever scheduled; and the state [isCopied] is
    true exactly when [timeoutRef] holds a timer, so that the button, once
    it has rendered again, shows as copied exactly while the timer is
    scheduled. *)
Theorem CopyButton_copied_iff_timer (events : list (CopyEvent MouseEvent)) :
  let st := copy_after onClick events copy_initial in
  (isCopied st = true <-> timeoutRef st <> None) /\
  copy_timers st = match timeoutRef st with Some i => [i] | None => [] end /\
  (rendered_isCopied (copy_after onClick (events ++ [Render]) copy_initial) = true
   <-> timeoutRef st <> None).
Proof.
  cbv zeta. rewrite copy_after_app.
  pose proof (copy_after_consistent events copy_initial copy_initial_consistent) as H.
  unfold copy_consistent in H.
  change (rendered_isCopied (copy_after onClick [Render] (copy_after onClick events copy_initial)))
    with (isCopied (copy_after onClick events copy_initial)).
  destruct (timeoutRef _) as [i |]; destruct H as [Hc Ht]; rewrite Hc, Ht.
  - repeat split; first [discriminate | reflexivity].
  - repeat split; first [discriminate | intros C; contradiction C; reflexivity].
Qed.

(** X18. After any course of clicks, renderings and firings of timers, the
    cleanup at unmount leaves no timer scheduled: the state of an unmounted
    button is never set. *)
Theorem CopyButton_cleanup_no_timer (events : list (CopyEvent MouseEvent)) :
  let st := copy_after onClick events copy_initial in
  copy_timers (snd (runState copy_cleanup st)) = [].
Proof.
  cbv zeta.
  pose proof (copy_after_consistent events copy_initial copy_initial_consistent) as H.
  unfold copy_consistent in H. unfold copy_cleanup. cbn.
  destruct (timeoutRef _) as [i |]; destruct H as [Hc Ht]; cbn; rewrite Ht; cbn.
  - rewrite Nat.eqb_refl. reflexivity.
  - reflexivity.
Qed.

(** Once the state and the rendering are both copied, clicks and renderings
    change nothing. *)
Lemma copied_and_rendered_stays (events : list (CopyEvent MouseEvent))
    (st : CopyButton MouseEvent) :
  isCopied st = true -> rendered_isCopied st = true ->
  no_timer_fires events = true ->
  copy_after onClick events st = st.
Proof.
  intros Hc Hr. induction events as [| [e | | i] events IH]; cbn [no_timer_fires forallb andb];
    intros Hn.
  - reflexivity.
  - rewrite copy_after_cons. cbn [copy_step]. unfold handleOnClick. cbn.
    rewrite Hr. cbn. apply IH, Hn.
  - rewrite copy_after_cons. cbn [copy_step].
    assert (snd (runState copy_render st) = st) as ->
        by (destruct st; cbn in *; subst; reflexivity).
    apply IH, Hn.
  - discriminate Hn.
Qed.

(** X19. When a click reaches a handler whose rendering is not copied, and
    the button has rendered again, every further click is ignored until the
    timer fires: whatever clicks and renderings follow, no click is passed
    to [onClick] and no timer is cancelled or started. *)
Theorem CopyButton_clicks_ignored_once_rendered
    (e : MouseEvent) (events : list (CopyEvent MouseEvent)) (st : CopyButton MouseEvent) :
  rendered_isCopied st = false -> no_timer_fires events = true ->
  copy_after onClick (Click e :: Render :: events) st
  = copy_after onClick [Click e; Render] st.
Proof.
  intros Hr Hn.
  change (Click e :: Render :: events) with ([Click e; Render] ++ events).
  rewrite copy_after_app. apply copied_and_rendered_stays; [| | exact Hn].
  - rewrite !copy_after_cons. cbn [copy_step]. unfold handleOnClick. cbn.
    rewrite Hr. reflexivity.
  - rewrite !copy_after_cons. cbn [copy_step]. unfold handleOnClick. cbn.
    rewrite Hr. reflexivity.
Qed.

(** Two clicks on the handler of one rendering that is not copied. *)
Lemma two_clicks_of_one_rendering (e1 e2 : MouseEvent) (st : CopyButton MouseEvent) :
  copy_consistent st -> rendered_isCopied st = false ->
  let st' := copy_after onClick [Click e1; Click e2] st in
  onClick_calls st' = (if onClick then onClick_calls st ++ [e1; e2] else onClick_calls st) /\
  timeoutRef st' = Some (S (copy_next_timer st)) /\
  copy_timers st' = [S (copy_next_timer st)] /\
  isCopied st' = true.
Proof.
  intros H Hr. cbv zeta.
  rewrite !copy_after_cons. cbn [copy_step].
  destruct st as [c r ref timers next calls].
  unfold copy_consistent in H. cbn in H, Hr. subst r.
  unfold copy_after, handleOnClick. cbn.
  destruct ref as [i |]; destruct H as [Hc Ht]; subst timers; cbn;
    repeat (rewrite Nat.eqb_refl; cbn).
  all: repeat split; destruct onClick; rewrite <- ?app_assoc; reflexivity.
Qed.

(** X22. The handler reads the constant of its rendering: of two clicks
    with no rendering between them, on a button that is rendered as not
    copied, both are passed to [onClick]; the second click cancels the timer
    of the first and starts its own, which is then the only timer
    scheduled. *)
Theorem CopyButton_clicks_before_render_both_forwarded
    (events : list (CopyEvent MouseEvent)) (e1 e2 : MouseEvent) :
  let st := copy_after onClick events copy_initial in
  let st' := copy_after onClick [Click e1; Click e2] st in
  rendered_isCopied st = false ->
  onClick_calls st' = (if onClick then onClick_calls st ++ [e1; e2] else onClick_calls st) /\
  timeoutRef st' = Some (S (copy_next_timer st)) /\
  copy_timers st' = [S (copy_next_timer st)] /\
  isCopied st' = true.
Proof.
  cbv zeta. intros Hr.
  apply two_clicks_of_one_rendering; [| exact Hr].
  apply copy_after_consistent, copy_initial_consistent.
Qed.

End CopyButtonProperties.

Section CopyButtonRuns.
Local Open Scope nat_scope.

Lemma CopyButton_clicks_ignored_once_rendered_witness :
  copy_after true [Click 1; Render; Click 2; Render; Click 3] copy_initial
  = copy_after true [Click 1; Render] copy_initial.
Proof.
  apply (CopyButton_clicks_ignored_once_rendered nat true 1 [Click 2; Render; Click 3]
           copy_initial); reflexivity.
Defined.

Lemma CopyButton_clicks_before_render_both_forwarded_witness :
  onClick_calls (copy_after true [Click 1; Click 2] (copy_after true [] copy_initial))
  = [1; 2] /\
  copy_timers (copy_after true [Click 1; Click 2] (copy_after true [] copy_initial)) = [2].
Proof.
  destruct (CopyButton_clicks_before_render_both_forwarded nat true [] 1 2 eq_refl)
    as (Hcalls & _ & Htimers & _).
  split; [exact Hcalls | exact Htimers].
Defined.

End CopyButtonRuns.

(** ** The commands of [wshserver.ts] *)

(** X20. No two methods of [WshServerType] send the same command name. *)
Theorem Wsh_command_injective (m m' : WshMethod) :
  Wsh_command m = Wsh_command m' -> m = m'.
Proof.
  destruct m; destruct m'; intros E; first [reflexivity | discriminate E].
Qed.

Lemma Wsh_command_injective_witness :
  Wsh_command TestCommand = "test"%string /\ TestCommand = TestCommand.
Proof.
  split; [reflexivity |].
  exact (Wsh_command_injective TestCommand TestCommand eq_refl).
Defined.

Lemma prefix_append (p b : string) : String.prefix p (p ++ b) = true.
Proof.
  induction p as [| c p IH]; cbn; [destruct b; reflexivity |].
  destruct (ascii_dec c c) as [_ | Hne]; [exact IH | contradiction Hne; reflexivity].
Qed.

Lemma has_infix_prefix (p s : string) : String.prefix p s = true -> has_infix p s = true.
Proof. intros E. destruct s; cbn [has_infix]; rewrite E; reflexivity. Qed.

Lemma has_infix_append (p a b : string) : has_infix p (a ++ p ++ b) = true.
Proof.
  induction a as [| c a IH].
  - change (has_infix p (p ++ b) = true). apply has_infix_prefix, prefix_append.
  - cbn [append has_infix]. rewrite IH. apply orb_true_r.
Qed.

(** X21. The command name of every method is the name of the method without
    its ending Command, in lower case; the methods whose command name has
    stream in it go to the stream helper, and all the others to the call
    helper. *)
Theorem Wsh_command_of_method_name (m : WshMethod) :
  Wsh_command m = lower_string (drop_suffix 7 (WshMethod_name m)) /\
  (fst (fst (WshServerType m)) = wshServerRpcHelper_responsestream
   <-> exists a b, Wsh_command m = (a ++ "stream" ++ b)%string) /\
  (fst (fst (WshServerType m)) = wshServerRpcHelper_call
   <-> ~ exists a b, Wsh_command m = (a ++ "stream" ++ b)%string).
Proof.
  assert (forall s, (exists a b, s = (a ++ "stream" ++ b)%string) ->
                    has_infix "stream" s = true) as Hinfix.
  { intros s (a & b & ->). apply has_infix_append. }
  split; [destruct m; reflexivity |].
  split; split.
  - destruct m; cbn; intros E; try discriminate E.
    + exists "remote"%string, "file"%string. reflexivity.
    + exists ""%string, "cpudata"%string. reflexivity.
    + exists ""%string, "test"%string. reflexivity.
    + exists ""%string, "waveai"%string. reflexivity.
  - intros Hs. apply Hinfix in Hs.
    destruct m; try reflexivity; vm_compute in Hs; discriminate Hs.
  - intros E Hs. apply Hinfix in Hs.
    destruct m; try discriminate E; vm_compute in Hs; discriminate Hs.
  - intros Hn. destruct m; try reflexivity; exfalso; apply Hn.
    + exists "remote"%string, "file"%string. reflexivity.
    + exists ""%string, "cpudata"%string. reflexivity.
    + exists ""%string, "test"%string. reflexivity.
    + exists ""%string, "waveai"%string. reflexivity.
Qed.
